(** * cyanide-go: the device core ([device/device.go]) and its pool test

    A shallow embedding of the device's lifecycle state machine, peer
    registry, static-identity rotation, load detector and obfuscation
    ("advanced security") configuration, with the properties the
    specification states about them.

    Conventions of the embedding.
    - A Go [int] is a 64-bit two's-complement integer, a [Z] wrapped by
      [wrap_int]; [uint32] and [int64] words are [Z] as well.
    - [error] is [option GoError]; [None] is Go's [nil].
    - A method that mutates the device is a function from the device to the
      new device (and the returned values).  Package-level variables
      ([MessageInitiationType], [packetSizeToMsgType], ...) live in
      [Globals].
    - One call runs at a time: the mutexes the source takes
      ([device.state], [device.net], [device.peers], [device.ipcMutex],
      [device.aSecMux], the per-peer handshake mutex) serialise the calls
      and are not represented.
    - Calls into collaborators whose code is outside this file (the logger,
      [Peer] methods, the TUN device, wait groups, goroutine spawns) are
      recorded, in program order, in the device's [trace].
    - Go iterates over a map in an unspecified order; the embedding iterates
      over [map_to_list], and no statement below depends on that order. *)

From Stdlib Require Import ZArith Lia String List.
From stdpp Require Import base option list gmap fin_maps.

Set Warnings "-register-all".

#[local] Open Scope string_scope.
#[local] Open Scope Z_scope.

(** ** Machine integers *)

(** Go's [int] on the 64-bit targets: addition wraps around. *)
Definition wrap_int (x : Z) : Z := (x + 2 ^ 63) mod 2 ^ 64 - 2 ^ 63.
Definition int_add (a b : Z) : Z := wrap_int (a + b).

(** [time.Time.UnixNano]: nanoseconds since the epoch as an [int64]. *)
Definition UnixNano (t : Z) : Z := wrap_int t.

(** ** Errors *)

(** The codes of package [ipc] (outside this file), kept symbolic. *)
Inductive ipcErrorCode : Type :=
| IpcErrorIO
| IpcErrorProtocol
| IpcErrorInvalid
| IpcErrorPortInUse
| IpcErrorUnknown.

(** An error value: one handed back by a collaborator, or an [*IPCError]
    carrying its code, format string, integer arguments and, when the format
    ends in [%w], the error it wraps. *)
Inductive GoError : Type :=
| ErrOpaque (msg : string)
| IPCError (code : ipcErrorCode) (fmt : string) (args : list Z)
           (wrapped : option GoError).

Definition error : Type := option GoError.

Definition ipcErrorf (code : ipcErrorCode) (fmt : string) (args : list Z)
           (wrapped : error) : GoError :=
  IPCError code fmt args wrapped.

Definition GoError_eqb_head (a b : GoError) : bool :=
  match a, b with
  | ErrOpaque s, ErrOpaque s' => String.eqb s s'
  | IPCError c f xs _, IPCError c' f' xs' _ =>
      match c, c' with
      | IpcErrorIO, IpcErrorIO | IpcErrorProtocol, IpcErrorProtocol
      | IpcErrorInvalid, IpcErrorInvalid | IpcErrorPortInUse, IpcErrorPortInUse
      | IpcErrorUnknown, IpcErrorUnknown => true
      | _, _ => false
      end && String.eqb f f' && bool_decide (xs = xs')
  | _, _ => false
  end.

(** [errors.Is]: [target] is [e] or one of the errors [e] wraps. *)
Fixpoint errorsIs (e target : GoError) : bool :=
  GoError_eqb_head e target
  || match e with
     | IPCError _ _ _ (Some w) => errorsIs w target
     | _ => false
     end.

(** The code of an error, when it is an [*IPCError]. *)
Definition ErrorCode (e : GoError) : option ipcErrorCode :=
  match e with
  | IPCError c _ _ _ => Some c
  | ErrOpaque _ => None
  end.

(** The spec's [ConfigInvalid]: an error tagged [IpcErrorInvalid]. *)
Definition isConfigInvalid (err : error) : Prop :=
  exists e, err = Some e /\ ErrorCode e = Some IpcErrorInvalid.

(** An error that is nil or tagged [IpcErrorInvalid]. *)
Definition nilOrInvalid (err : error) : Prop :=
  forall e, err = Some e -> ErrorCode e = Some IpcErrorInvalid.

(** ** Constants *)

Definition QueueOutboundSize : Z := 1024.
Definition QueueInboundSize : Z := 1024.
Definition QueueHandshakeSize : Z := 1024.
Definition MaxSegmentSize : Z := Z.shiftl 1 16 - 1.
Definition PreallocatedBuffersPerPool : Z := 0.

(** Modelled from the spec: [MessageInitiationSize] and
    [MessageResponseSize] are declared outside this file; the wire-framing
    table gives 148 and 92, as do the messages of [handlePostConfig]. *)
Definition MessageInitiationSize : Z := 148.
Definition MessageResponseSize : Z := 92.

(** Constants declared outside this file whose values the specification
    does not give. *)
Class Constants : Type := {
  MessageCookieReplySize : Z;
  MessageTransportSize : Z;
  UnderLoadAfterTime : Z
}.

(** ** Data model *)

Definition NoisePrivateKey : Type := Z.
Definition NoisePublicKey : Type := Z.

(** [Equals] of the two key types: a constant-time comparison of the 32
    bytes, here of the numbers they encode. *)
Definition NoisePrivateKey_Equals (a b : NoisePrivateKey) : bool := a =? b.
Definition NoisePublicKey_Equals (a b : NoisePublicKey) : bool := a =? b.

(** The Curve25519 operations of the Noise layer (outside this file). *)
Class Crypto : Type := {
  publicKey : NoisePrivateKey -> NoisePublicKey;
  sharedSecret : NoisePrivateKey -> NoisePublicKey -> Z * error
}.

Record aSecConfType : Type := mk_aSecConfType {
  isSet : bool;
  junkPacketCount : Z;
  junkPacketMinSize : Z;
  junkPacketMaxSize : Z;
  initPacketJunkSize : Z;
  responsePacketJunkSize : Z;
  initPacketMagicHeader : Z;
  responsePacketMagicHeader : Z;
  underloadPacketMagicHeader : Z;
  transportPacketMagicHeader : Z
}.

Definition set_junkPacketCount (v : Z) (c : aSecConfType) : aSecConfType :=
  mk_aSecConfType (isSet c) v (junkPacketMinSize c) (junkPacketMaxSize c)
    (initPacketJunkSize c) (responsePacketJunkSize c) (initPacketMagicHeader c)
    (responsePacketMagicHeader c) (underloadPacketMagicHeader c)
    (transportPacketMagicHeader c).
Definition set_junkPacketMinSize (v : Z) (c : aSecConfType) : aSecConfType :=
  mk_aSecConfType (isSet c) (junkPacketCount c) v (junkPacketMaxSize c)
    (initPacketJunkSize c) (responsePacketJunkSize c) (initPacketMagicHeader c)
    (responsePacketMagicHeader c) (underloadPacketMagicHeader c)
    (transportPacketMagicHeader c).
Definition set_junkPacketMaxSize (v : Z) (c : aSecConfType) : aSecConfType :=
  mk_aSecConfType (isSet c) (junkPacketCount c) (junkPacketMinSize c) v
    (initPacketJunkSize c) (responsePacketJunkSize c) (initPacketMagicHeader c)
    (responsePacketMagicHeader c) (underloadPacketMagicHeader c)
    (transportPacketMagicHeader c).
Definition set_initPacketJunkSize (v : Z) (c : aSecConfType) : aSecConfType :=
  mk_aSecConfType (isSet c) (junkPacketCount c) (junkPacketMinSize c)
    (junkPacketMaxSize c) v (responsePacketJunkSize c) (initPacketMagicHeader c)
    (responsePacketMagicHeader c) (underloadPacketMagicHeader c)
    (transportPacketMagicHeader c).
Definition set_responsePacketJunkSize (v : Z) (c : aSecConfType) : aSecConfType :=
  mk_aSecConfType (isSet c) (junkPacketCount c) (junkPacketMinSize c)
    (junkPacketMaxSize c) (initPacketJunkSize c) v (initPacketMagicHeader c)
    (responsePacketMagicHeader c) (underloadPacketMagicHeader c)
    (transportPacketMagicHeader c).
Definition set_initPacketMagicHeader (v : Z) (c : aSecConfType) : aSecConfType :=
  mk_aSecConfType (isSet c) (junkPacketCount c) (junkPacketMinSize c)
    (junkPacketMaxSize c) (initPacketJunkSize c) (responsePacketJunkSize c) v
    (responsePacketMagicHeader c) (underloadPacketMagicHeader c)
    (transportPacketMagicHeader c).
Definition set_responsePacketMagicHeader (v : Z) (c : aSecConfType) : aSecConfType :=
  mk_aSecConfType (isSet c) (junkPacketCount c) (junkPacketMinSize c)
    (junkPacketMaxSize c) (initPacketJunkSize c) (responsePacketJunkSize c)
    (initPacketMagicHeader c) v (underloadPacketMagicHeader c)
    (transportPacketMagicHeader c).
Definition set_underloadPacketMagicHeader (v : Z) (c : aSecConfType) : aSecConfType :=
  mk_aSecConfType (isSet c) (junkPacketCount c) (junkPacketMinSize c)
    (junkPacketMaxSize c) (initPacketJunkSize c) (responsePacketJunkSize c)
    (initPacketMagicHeader c) (responsePacketMagicHeader c) v
    (transportPacketMagicHeader c).
Definition set_transportPacketMagicHeader (v : Z) (c : aSecConfType) : aSecConfType :=
  mk_aSecConfType (isSet c) (junkPacketCount c) (junkPacketMinSize c)
    (junkPacketMaxSize c) (initPacketJunkSize c) (responsePacketJunkSize c)
    (initPacketMagicHeader c) (responsePacketMagicHeader c)
    (underloadPacketMagicHeader c) v.

(** The package-level variables [handlePostConfig] assigns. *)
Record Globals : Type := mk_Globals {
  MessageInitiationType : Z;
  MessageResponseType : Z;
  MessageCookieReplyType : Z;
  MessageTransportType : Z;
  packetSizeToMsgType : gmap Z Z;
  msgTypeToJunkSize : gmap Z Z
}.

Definition set_MessageInitiationType (v : Z) (g : Globals) : Globals :=
  mk_Globals v (MessageResponseType g) (MessageCookieReplyType g)
    (MessageTransportType g) (packetSizeToMsgType g) (msgTypeToJunkSize g).
Definition set_MessageResponseType (v : Z) (g : Globals) : Globals :=
  mk_Globals (MessageInitiationType g) v (MessageCookieReplyType g)
    (MessageTransportType g) (packetSizeToMsgType g) (msgTypeToJunkSize g).
Definition set_MessageCookieReplyType (v : Z) (g : Globals) : Globals :=
  mk_Globals (MessageInitiationType g) (MessageResponseType g) v
    (MessageTransportType g) (packetSizeToMsgType g) (msgTypeToJunkSize g).
Definition set_MessageTransportType (v : Z) (g : Globals) : Globals :=
  mk_Globals (MessageInitiationType g) (MessageResponseType g)
    (MessageCookieReplyType g) v (packetSizeToMsgType g) (msgTypeToJunkSize g).
Definition set_packetSizeToMsgType (v : gmap Z Z) (g : Globals) : Globals :=
  mk_Globals (MessageInitiationType g) (MessageResponseType g)
    (MessageCookieReplyType g) (MessageTransportType g) v (msgTypeToJunkSize g).
Definition set_msgTypeToJunkSize (v : gmap Z Z) (g : Globals) : Globals :=
  mk_Globals (MessageInitiationType g) (MessageResponseType g)
    (MessageCookieReplyType g) (MessageTransportType g) (packetSizeToMsgType g) v.

(** A [*Peer] is its address [peer_id] together with the fields of the peer
    that the device code reads or writes. *)
Record Peer : Type := mk_Peer {
  peer_id : Z;
  handshake_remoteStatic : NoisePublicKey;
  handshake_precomputedStaticStatic : Z;
  persistentKeepaliveInterval : Z
}.

Definition set_precomputedStaticStatic (v : Z) (p : Peer) : Peer :=
  mk_Peer (peer_id p) (handshake_remoteStatic p) v (persistentKeepaliveInterval p).

(** Modelled from the spec: the allowed-IPs trie ([allowedips.go]) is not
    part of this file.  The specification describes it as a set of prefixes,
    each leaf referencing a peer; an entry is the prefix (address and
    length) with the address of the peer it routes to. *)
Record AllowedIPsEntry : Type := mk_AllowedIPsEntry {
  entry_ip : Z;
  entry_cidr : Z;
  entry_peer : Z
}.
Definition AllowedIPs : Type := list AllowedIPsEntry.

(** Modelled from the spec: [RemoveByPeer] "walks the tree and detaches every
    leaf referencing [peer]". *)
Definition AllowedIPs_RemoveByPeer (table : AllowedIPs) (peer : Peer) : AllowedIPs :=
  filter (fun e => entry_peer e ≠ peer_id peer) table.

(** An element of the handshake channel (declared outside this file); the
    device code here only takes the channel's length. *)
Record QueueHandshakeElement : Type := mk_QueueHandshakeElement {
  msgType : Z;
  packet : list Z
}.

(** What the device asks of its collaborators, in program order. *)
Inductive Event : Type :=
| LogVerbosef (fmt : string) (args : list Z)
| LogErrorf (fmt : string) (e : GoError)
| EvAllowedIPsRemoveByPeer (peer : Z)
| EvPeerStop (peer : Z)
| EvPeerStart (peer : Z)
| EvPeerSendKeepalive (peer : Z)
| EvPeerExpireCurrentKeypairs (peer : Z)
| EvPeerMarkEndpointSrcForClearing (peer : Z)
| EvKeyMapDelete (key : NoisePublicKey)
| EvNetlinkCancel
| EvNetStoppingWait
| EvNetStoppingAdd (n : Z)
| EvQueueDecryptionAdd (n : Z)
| EvQueueHandshakeAdd (n : Z)
| EvGoRoutineReceiveIncoming (batchSize : Z) (fn : nat)
| EvTunClose
| EvQueueEncryptionDone
| EvQueueDecryptionDone
| EvQueueHandshakeDone
| EvStateStoppingWait
| EvRateLimiterClose
| EvCloseClosed.

(** [conn.Bind], the UDP socket interface, over the state [B] of a bind.
    [bind_Open] answers the number of receive functions, the actual port and
    an error. *)
Class Bind (B : Type) : Type := {
  bind_Open : B -> Z -> B * (nat * Z * error);
  bind_Close : B -> B * error;
  bind_SetMark : B -> Z -> B * error;
  bind_BatchSize : B -> Z
}.

(** [*rwcancel.RWCancel], the handle of the route listener. *)
Inductive RWCancel : Type := mk_RWCancel.

(** The cookie checker ([cookie.go], outside this file) derives its keys from
    the public key it was last initialised with; that key stands for it. *)
Definition CookieChecker : Type := option NoisePublicKey.

(** [deviceState]: the three values of the state word. *)
Definition deviceState : Type := Z.
Definition deviceStateDown : deviceState := 0.
Definition deviceStateUp : deviceState := 1.
Definition deviceStateClosed : deviceState := 2.

(** The [Device] struct.  Nested structs are flattened ([state_state] is
    [device.state.state]); [closed] tells whether the [closed] channel has
    been closed; [trace] is the record of collaborator calls. *)
Record Device (B : Type) : Type := mk_Device {
  state_state : Z;
  net_bind : B;
  net_netlinkCancel : option RWCancel;
  net_port : Z;
  net_fwmark : Z;
  net_brokenRoaming : bool;
  staticIdentity_privateKey : NoisePrivateKey;
  staticIdentity_publicKey : NoisePublicKey;
  peers_keyMap : gmap NoisePublicKey Peer;
  rate_underLoadUntil : Z;
  allowedips : AllowedIPs;
  cookieChecker : CookieChecker;
  queue_handshake_c : list QueueHandshakeElement;
  tun_mtu : Z;
  closed : bool;
  isASecOn : bool;
  aSecConf : aSecConfType;
  trace : list Event
}.

Arguments mk_Device {B}.
Arguments state_state {B} _.
Arguments net_bind {B} _.
Arguments net_netlinkCancel {B} _.
Arguments net_port {B} _.
Arguments net_fwmark {B} _.
Arguments net_brokenRoaming {B} _.
Arguments staticIdentity_privateKey {B} _.
Arguments staticIdentity_publicKey {B} _.
Arguments peers_keyMap {B} _.
Arguments rate_underLoadUntil {B} _.
Arguments allowedips {B} _.
Arguments cookieChecker {B} _.
Arguments queue_handshake_c {B} _.
Arguments tun_mtu {B} _.
Arguments closed {B} _.
Arguments isASecOn {B} _.
Arguments aSecConf {B} _.
Arguments trace {B} _.

Definition set_state_state {B} (v : Z) (d : Device B) : Device B :=
  mk_Device v (net_bind d) (net_netlinkCancel d) (net_port d) (net_fwmark d)
    (net_brokenRoaming d) (staticIdentity_privateKey d) (staticIdentity_publicKey d)
    (peers_keyMap d) (rate_underLoadUntil d) (allowedips d) (cookieChecker d)
    (queue_handshake_c d) (tun_mtu d) (closed d) (isASecOn d) (aSecConf d) (trace d).
Definition set_net_bind {B} (v : B) (d : Device B) : Device B :=
  mk_Device (state_state d) v (net_netlinkCancel d) (net_port d) (net_fwmark d)
    (net_brokenRoaming d) (staticIdentity_privateKey d) (staticIdentity_publicKey d)
    (peers_keyMap d) (rate_underLoadUntil d) (allowedips d) (cookieChecker d)
    (queue_handshake_c d) (tun_mtu d) (closed d) (isASecOn d) (aSecConf d) (trace d).
Definition set_net_netlinkCancel {B} (v : option RWCancel) (d : Device B) : Device B :=
  mk_Device (state_state d) (net_bind d) v (net_port d) (net_fwmark d)
    (net_brokenRoaming d) (staticIdentity_privateKey d) (staticIdentity_publicKey d)
    (peers_keyMap d) (rate_underLoadUntil d) (allowedips d) (cookieChecker d)
    (queue_handshake_c d) (tun_mtu d) (closed d) (isASecOn d) (aSecConf d) (trace d).
Definition set_net_port {B} (v : Z) (d : Device B) : Device B :=
  mk_Device (state_state d) (net_bind d) (net_netlinkCancel d) v (net_fwmark d)
    (net_brokenRoaming d) (staticIdentity_privateKey d) (staticIdentity_publicKey d)
    (peers_keyMap d) (rate_underLoadUntil d) (allowedips d) (cookieChecker d)
    (queue_handshake_c d) (tun_mtu d) (closed d) (isASecOn d) (aSecConf d) (trace d).
Definition set_net_fwmark {B} (v : Z) (d : Device B) : Device B :=
  mk_Device (state_state d) (net_bind d) (net_netlinkCancel d) (net_port d) v
    (net_brokenRoaming d) (staticIdentity_privateKey d) (staticIdentity_publicKey d)
    (peers_keyMap d) (rate_underLoadUntil d) (allowedips d) (cookieChecker d)
    (queue_handshake_c d) (tun_mtu d) (closed d) (isASecOn d) (aSecConf d) (trace d).
Definition set_staticIdentity_privateKey {B} (v : NoisePrivateKey) (d : Device B) : Device B :=
  mk_Device (state_state d) (net_bind d) (net_netlinkCancel d) (net_port d)
    (net_fwmark d) (net_brokenRoaming d) v (staticIdentity_publicKey d) (peers_keyMap d)
    (rate_underLoadUntil d) (allowedips d) (cookieChecker d) (queue_handshake_c d)
    (tun_mtu d) (closed d) (isASecOn d) (aSecConf d) (trace d).
Definition set_staticIdentity_publicKey {B} (v : NoisePublicKey) (d : Device B) : Device B :=
  mk_Device (state_state d) (net_bind d) (net_netlinkCancel d) (net_port d)
    (net_fwmark d) (net_brokenRoaming d) (staticIdentity_privateKey d) v (peers_keyMap
    d) (rate_underLoadUntil d) (allowedips d) (cookieChecker d) (queue_handshake_c d)
    (tun_mtu d) (closed d) (isASecOn d) (aSecConf d) (trace d).
Definition set_peers_keyMap {B} (v : gmap NoisePublicKey Peer) (d : Device B) : Device B :=
  mk_Device (state_state d) (net_bind d) (net_netlinkCancel d) (net_port d)
    (net_fwmark d) (net_brokenRoaming d) (staticIdentity_privateKey d)
    (staticIdentity_publicKey d) v (rate_underLoadUntil d) (allowedips d) (cookieChecker
    d) (queue_handshake_c d) (tun_mtu d) (closed d) (isASecOn d) (aSecConf d) (trace d).
Definition set_rate_underLoadUntil {B} (v : Z) (d : Device B) : Device B :=
  mk_Device (state_state d) (net_bind d) (net_netlinkCancel d) (net_port d)
    (net_fwmark d) (net_brokenRoaming d) (staticIdentity_privateKey d)
    (staticIdentity_publicKey d) (peers_keyMap d) v (allowedips d) (cookieChecker d)
    (queue_handshake_c d) (tun_mtu d) (closed d) (isASecOn d) (aSecConf d) (trace d).
Definition set_allowedips {B} (v : AllowedIPs) (d : Device B) : Device B :=
  mk_Device (state_state d) (net_bind d) (net_netlinkCancel d) (net_port d)
    (net_fwmark d) (net_brokenRoaming d) (staticIdentity_privateKey d)
    (staticIdentity_publicKey d) (peers_keyMap d) (rate_underLoadUntil d) v
    (cookieChecker d) (queue_handshake_c d) (tun_mtu d) (closed d) (isASecOn d)
    (aSecConf d) (trace d).
Definition set_cookieChecker {B} (v : CookieChecker) (d : Device B) : Device B :=
  mk_Device (state_state d) (net_bind d) (net_netlinkCancel d) (net_port d)
    (net_fwmark d) (net_brokenRoaming d) (staticIdentity_privateKey d)
    (staticIdentity_publicKey d) (peers_keyMap d) (rate_underLoadUntil d) (allowedips d)
    v (queue_handshake_c d) (tun_mtu d) (closed d) (isASecOn d) (aSecConf d) (trace d).
Definition set_closed {B} (v : bool) (d : Device B) : Device B :=
  mk_Device (state_state d) (net_bind d) (net_netlinkCancel d) (net_port d)
    (net_fwmark d) (net_brokenRoaming d) (staticIdentity_privateKey d)
    (staticIdentity_publicKey d) (peers_keyMap d) (rate_underLoadUntil d) (allowedips d)
    (cookieChecker d) (queue_handshake_c d) (tun_mtu d) v (isASecOn d) (aSecConf d)
    (trace d).
Definition set_isASecOn {B} (v : bool) (d : Device B) : Device B :=
  mk_Device (state_state d) (net_bind d) (net_netlinkCancel d) (net_port d)
    (net_fwmark d) (net_brokenRoaming d) (staticIdentity_privateKey d)
    (staticIdentity_publicKey d) (peers_keyMap d) (rate_underLoadUntil d) (allowedips d)
    (cookieChecker d) (queue_handshake_c d) (tun_mtu d) (closed d) v (aSecConf d) (trace
    d).
Definition set_aSecConf {B} (v : aSecConfType) (d : Device B) : Device B :=
  mk_Device (state_state d) (net_bind d) (net_netlinkCancel d) (net_port d)
    (net_fwmark d) (net_brokenRoaming d) (staticIdentity_privateKey d)
    (staticIdentity_publicKey d) (peers_keyMap d) (rate_underLoadUntil d) (allowedips d)
    (cookieChecker d) (queue_handshake_c d) (tun_mtu d) (closed d) (isASecOn d) v (trace
    d).
Definition set_trace {B} (v : list Event) (d : Device B) : Device B :=
  mk_Device (state_state d) (net_bind d) (net_netlinkCancel d) (net_port d)
    (net_fwmark d) (net_brokenRoaming d) (staticIdentity_privateKey d)
    (staticIdentity_publicKey d) (peers_keyMap d) (rate_underLoadUntil d) (allowedips d)
    (cookieChecker d) (queue_handshake_c d) (tun_mtu d) (closed d) (isASecOn d)
    (aSecConf d) v.

(** ** The device's methods *)

Section DeviceCode.
Context {B : Type} `{!Bind B} `{!Crypto} `{!Constants}.

(** Appending to the record of collaborator calls. *)
Definition emit (e : Event) (device : Device B) : Device B :=
  set_trace (trace device ++ [e]) device.

Definition emits (es : list Event) (device : Device B) : Device B :=
  set_trace (trace device ++ es) device.

(** [for key, peer := range device.peers.keyMap { body }]: the entries of
    the map as it is when the loop starts.  (The only deletion a loop body
    makes is of the entry it is visiting, so every entry is visited.) *)
Definition range_keyMap (body : Device B -> NoisePublicKey -> Peer -> Device B)
           (device : Device B) : Device B :=
  foldl (fun d kp => body d kp.1 kp.2) device (map_to_list (peers_keyMap device)).

Definition get_deviceState (device : Device B) : deviceState := state_state device.

Definition isClosed (device : Device B) : bool :=
  get_deviceState device =? deviceStateClosed.

Definition isUp (device : Device B) : bool :=
  get_deviceState device =? deviceStateUp.

(** Must hold [device.peers.Lock()]. *)
Definition removePeerLocked (device : Device B) (peer : Peer) (key : NoisePublicKey)
  : Device B :=
  (* stop routing and processing of packets *)
  let device := set_allowedips (AllowedIPs_RemoveByPeer (allowedips device) peer) device in
  let device := emit (EvAllowedIPsRemoveByPeer (peer_id peer)) device in
  let device := emit (EvPeerStop (peer_id peer)) device in
  (* remove from peer map *)
  let device := set_peers_keyMap (delete key (peers_keyMap device)) device in
  emit (EvKeyMapDelete key) device.

(** [startRouteListener] of the default build: no listener. *)
Definition startRouteListener (bind : B) : option RWCancel * error := (None, None).

(** The caller must hold the net mutex.  The bind of a device is the one
    [NewDevice] was given, taken to be non-nil. *)
Definition closeBindLocked (device : Device B) : error * Device B :=
  let device :=
    match net_netlinkCancel device with
    | Some _ => emit EvNetlinkCancel device
    | None => device
    end in
  let '(bind, err) := bind_Close (net_bind device) in
  let device := set_net_bind bind device in
  let device := emit EvNetStoppingWait device in
  (err, device).

Definition BindClose (device : Device B) : error * Device B :=
  closeBindLocked device.

Definition BindUpdate (device : Device B) : error * Device B :=
  (* close existing sockets *)
  let '(err, device) := closeBindLocked device in
  match err with
  | Some e => (Some e, device)
  | None =>
  (* open new sockets *)
  if negb (isUp device) then (None, device) else
  (* bind to new port *)
  let '(bind, (recvFns, port, err)) := bind_Open (net_bind device) (net_port device) in
  let device := set_net_port port (set_net_bind bind device) in
  match err with
  | Some e => (Some e, set_net_port 0 device)
  | None =>
  let '(cancel, err) := startRouteListener (net_bind device) in
  let device := set_net_netlinkCancel cancel device in
  match err with
  | Some e =>
      let '(bind, _) := bind_Close (net_bind device) in
      (Some e, set_net_port 0 (set_net_bind bind device))
  | None =>
  (* set fwmark *)
  let '(err, device) :=
    if negb (net_fwmark device =? 0) then
      let '(bind, err) := bind_SetMark (net_bind device) (net_fwmark device) in
      (err, set_net_bind bind device)
    else (None, device) in
  match err with
  | Some e => (Some e, device)
  | None =>
  (* clear cached source addresses *)
  let device :=
    range_keyMap
      (fun d _ peer => emit (EvPeerMarkEndpointSrcForClearing (peer_id peer)) d)
      device in
  (* start receiving routines *)
  let device := emit (EvNetStoppingAdd (Z.of_nat recvFns)) device in
  let device := emit (EvQueueDecryptionAdd (Z.of_nat recvFns)) device in
  let device := emit (EvQueueHandshakeAdd (Z.of_nat recvFns)) device in
  let batchSize := bind_BatchSize (net_bind device) in
  let device :=
    foldl (fun d fn => emit (EvGoRoutineReceiveIncoming batchSize fn) d)
          device (seq 0 recvFns) in
  let device := emit (LogVerbosef "UDP bind has been updated" []) device in
  (None, device)
  end end end end.

(** [upLocked] attempts to bring the device up and reports whether it
    succeeded.  The caller updates [state_state]. *)
Definition upLocked (device : Device B) : error * Device B :=
  let '(err, device) := BindUpdate device in
  match err with
  | Some e => (Some e, emit (LogErrorf "Unable to update bind: %v" e) device)
  | None =>
      let device :=
        range_keyMap
          (fun d _ peer =>
             let d := emit (EvPeerStart (peer_id peer)) d in
             if persistentKeepaliveInterval peer >? 0
             then emit (EvPeerSendKeepalive (peer_id peer)) d
             else d)
          device in
      (None, device)
  end.

(** [downLocked] attempts to bring the device down. *)
Definition downLocked (device : Device B) : error * Device B :=
  let '(err, device) := BindClose device in
  let device :=
    match err with
    | Some e => emit (LogErrorf "Bind close failed: %v" e) device
    | None => device
    end in
  let device := range_keyMap (fun d _ peer => emit (EvPeerStop (peer_id peer)) d) device in
  (err, device).

(** [changeState] attempts to change the device state to match [want].
    [lower] is the [case deviceStateDown] arm, entered directly or by the
    [fallthrough] of the arm above it with the error of [upLocked]. *)
Definition changeState (want : deviceState) (device : Device B) : error * Device B :=
  let old := get_deviceState device in
  if old =? deviceStateClosed then
    (* once closed, always closed *)
    (None, emit (LogVerbosef "Interface closed, ignored requested state %s" [want]) device)
  else
    let finish (err : error) (device : Device B) :=
      (err, emit (LogVerbosef "Interface state was %s, requested %s, now %s"
                    [old; want; get_deviceState device]) device) in
    let lower (err : error) (device : Device B) :=
      let device := set_state_state deviceStateDown device in
      let '(errDown, device) := downLocked device in
      let err := match err with None => errDown | Some _ => err end in
      finish err device in
    if want =? old then (None, device)
    else if want =? deviceStateUp then
      let device := set_state_state deviceStateUp device in
      let '(err, device) := upLocked device in
      match err with
      | None => finish None device
      | Some _ => lower err device (* up failed; bring the device all the way back down *)
      end
    else if want =? deviceStateDown then lower None device
    else finish None device.

Definition Up (device : Device B) : error * Device B :=
  changeState deviceStateUp device.

Definition Down (device : Device B) : error * Device B :=
  changeState deviceStateDown device.

(** [IsUnderLoad], at the instant [now] (nanoseconds since the epoch) that
    [time.Now()] answers. *)
Definition IsUnderLoad (now : Z) (device : Device B) : bool * Device B :=
  (* check if currently under load *)
  let underLoad :=
    Z.of_nat (length (queue_handshake_c device)) >=? QueueHandshakeSize ÷ 8 in
  if underLoad then
    (true, set_rate_underLoadUntil (UnixNano (now + UnderLoadAfterTime)) device)
  else
    (* check if recently under load *)
    (rate_underLoadUntil device >? UnixNano now, device).

Definition SetPrivateKey (sk : NoisePrivateKey) (device : Device B) : error * Device B :=
  if NoisePrivateKey_Equals sk (staticIdentity_privateKey device) then (None, device)
  else
    (* remove peers with matching public keys *)
    let publicKey := publicKey sk in
    let device :=
      range_keyMap
        (fun d key peer =>
           if NoisePublicKey_Equals (handshake_remoteStatic peer) publicKey
           then removePeerLocked d peer key
           else d)
        device in
    (* update key material *)
    let device := set_staticIdentity_privateKey sk device in
    let device := set_staticIdentity_publicKey publicKey device in
    let device := set_cookieChecker (Some publicKey) device in
    (* do static-static DH pre-computations *)
    let device :=
      set_peers_keyMap
        ((fun peer =>
            set_precomputedStaticStatic
              (sharedSecret (staticIdentity_privateKey device)
                            (handshake_remoteStatic peer)).1
              peer) <$> peers_keyMap device)
        device in
    let expiredPeers := (map_to_list (peers_keyMap device)).*2 in
    let device :=
      foldl (fun d peer => emit (EvPeerExpireCurrentKeypairs (peer_id peer)) d)
            device expiredPeers in
    (None, device).

Definition LookupPeer (pk : NoisePublicKey) (device : Device B) : option Peer :=
  peers_keyMap device !! pk.

Definition RemovePeer (key : NoisePublicKey) (device : Device B) : Device B :=
  (* stop peer and remove from routing *)
  match peers_keyMap device !! key with
  | Some peer => removePeerLocked device peer key
  | None => device
  end.

Definition RemoveAllPeers (device : Device B) : Device B :=
  let device := range_keyMap (fun d key peer => removePeerLocked d peer key) device in
  set_peers_keyMap ∅ device.

Definition Close (device : Device B) : Device B :=
  if isClosed device then device
  else
    let device := set_state_state deviceStateClosed device in
    let device := emit (LogVerbosef "Device closing" []) device in
    let device := emit EvTunClose device in
    let '(_, device) := downLocked device in
    (* Remove peers before closing queues, because peers assume that
       queues are active. *)
    let device := RemoveAllPeers device in
    let device := emit EvQueueEncryptionDone device in
    let device := emit EvQueueDecryptionDone device in
    let device := emit EvQueueHandshakeDone device in
    let device := emit EvStateStoppingWait device in
    let device := emit EvRateLimiterClose device in
    let device := emit (LogVerbosef "Device closed" []) device in
    set_closed true device.

Definition isAdvancedSecurityOn (device : Device B) : bool := isASecOn device.

End DeviceCode.

(** ** Obfuscation configuration *)

Section PostConfig.
Context {B : Type} `{!Constants}.

(** [device.aSecConf.f = v]. *)
Definition upd_aSecConf (f : aSecConfType -> aSecConfType) (device : Device B)
  : Device B :=
  set_aSecConf (f (aSecConf device)) device.

(** The pattern every check of [handlePostConfig] follows: the new
    [IpcErrorInvalid] error wraps the pending one, if any (the format then
    ends in [; %w]). *)
Definition fault (err : error) (fmt : string) (args : list Z) : error :=
  match err with
  | Some e => Some (ipcErrorf IpcErrorInvalid (fmt ++ "; %w") args (Some e))
  | None => Some (ipcErrorf IpcErrorInvalid fmt args None)
  end.

(** [handlePostConfig] is one long function; it is embedded as the four
    stretches it consists of, which hand each other the locals [err] and
    [isASecOn].  [tempASecConf] is passed by pointer and its
    [junkPacketMaxSize] may be incremented, so it is handed on as well. *)

(** The junk parameters (from [isASecOn := false] to the check of the
    response junk size). *)
Definition postConfig_junk (tempASecConf : aSecConfType) (device : Device B)
  : error * bool * aSecConfType * Device B :=
  let isASecOn := false in
  let err : error :=
    if junkPacketCount tempASecConf <? 0
    then Some (ipcErrorf IpcErrorInvalid "JunkPacketCount should be non negative" [] None)
    else None in
  let device := upd_aSecConf (set_junkPacketCount (junkPacketCount tempASecConf)) device in
  let isASecOn := if negb (junkPacketCount tempASecConf =? 0) then true else isASecOn in

  let device :=
    upd_aSecConf (set_junkPacketMinSize (junkPacketMinSize tempASecConf)) device in
  let isASecOn := if negb (junkPacketMinSize tempASecConf =? 0) then true else isASecOn in

  let tempASecConf :=
    if (junkPacketCount (aSecConf device) >? 0)
       && (junkPacketMaxSize tempASecConf =? junkPacketMinSize tempASecConf)
    then set_junkPacketMaxSize (int_add (junkPacketMaxSize tempASecConf) 1) tempASecConf
    else tempASecConf in

  let '(err, device) :=
    if junkPacketMaxSize tempASecConf >=? MaxSegmentSize then
      let device := upd_aSecConf (set_junkPacketMinSize 0) device in
      let device := upd_aSecConf (set_junkPacketMaxSize 1) device in
      (fault err "JunkPacketMaxSize: %d; should be smaller than maxSegmentSize: %d"
             [junkPacketMaxSize tempASecConf; MaxSegmentSize],
       device)
    else if junkPacketMaxSize tempASecConf <? junkPacketMinSize tempASecConf then
      (fault err "maxSize: %d; should be greater than minSize: %d"
             [junkPacketMaxSize tempASecConf; junkPacketMinSize tempASecConf],
       device)
    else
      (err, upd_aSecConf (set_junkPacketMaxSize (junkPacketMaxSize tempASecConf)) device) in
  let isASecOn := if negb (junkPacketMaxSize tempASecConf =? 0) then true else isASecOn in

  let '(err, device) :=
    if int_add MessageInitiationSize (initPacketJunkSize tempASecConf) >=? MaxSegmentSize
    then
      (fault err
         "init header size(148) + junkSize:%d; should be smaller than maxSegmentSize: %d"
         [initPacketJunkSize tempASecConf; MaxSegmentSize],
       device)
    else
      (err, upd_aSecConf (set_initPacketJunkSize (initPacketJunkSize tempASecConf)) device) in
  let isASecOn := if negb (initPacketJunkSize tempASecConf =? 0) then true else isASecOn in

  let '(err, device) :=
    if int_add MessageResponseSize (responsePacketJunkSize tempASecConf) >=? MaxSegmentSize
    then
      (fault err
         "response header size(92) + junkSize:%d; should be smaller than maxSegmentSize: %d"
         [responsePacketJunkSize tempASecConf; MaxSegmentSize],
       device)
    else
      (err,
       upd_aSecConf (set_responsePacketJunkSize (responsePacketJunkSize tempASecConf))
                    device) in
  let isASecOn :=
    if negb (responsePacketJunkSize tempASecConf =? 0) then true else isASecOn in
  (err, isASecOn, tempASecConf, device).

(** The four magic headers (the four [if ... > 4] statements). *)
Definition postConfig_magic (tempASecConf : aSecConfType) (isASecOn : bool)
           (device : Device B) (g : Globals) : bool * Device B * Globals :=
  let '(isASecOn, device, g) :=
    if initPacketMagicHeader tempASecConf >? 4 then
      let device := emit (LogVerbosef "UAPI: Updating init_packet_magic_header" []) device in
      let device :=
        upd_aSecConf (set_initPacketMagicHeader (initPacketMagicHeader tempASecConf))
                     device in
      (true, device, set_MessageInitiationType (initPacketMagicHeader (aSecConf device)) g)
    else
      let device := emit (LogVerbosef "UAPI: Using default init type" []) device in
      (isASecOn, device, set_MessageInitiationType 1 g) in

  let '(isASecOn, device, g) :=
    if responsePacketMagicHeader tempASecConf >? 4 then
      let device :=
        emit (LogVerbosef "UAPI: Updating response_packet_magic_header" []) device in
      let device :=
        upd_aSecConf
          (set_responsePacketMagicHeader (responsePacketMagicHeader tempASecConf))
          device in
      (true, device, set_MessageResponseType (responsePacketMagicHeader (aSecConf device)) g)
    else
      let device := emit (LogVerbosef "UAPI: Using default response type" []) device in
      (isASecOn, device, set_MessageResponseType 2 g) in

  let '(isASecOn, device, g) :=
    if underloadPacketMagicHeader tempASecConf >? 4 then
      let device :=
        emit (LogVerbosef "UAPI: Updating underload_packet_magic_header" []) device in
      let device :=
        upd_aSecConf
          (set_underloadPacketMagicHeader (underloadPacketMagicHeader tempASecConf))
          device in
      (true, device,
       set_MessageCookieReplyType (underloadPacketMagicHeader (aSecConf device)) g)
    else
      let device := emit (LogVerbosef "UAPI: Using default underload type" []) device in
      (isASecOn, device, set_MessageCookieReplyType 3 g) in

  if transportPacketMagicHeader tempASecConf >? 4 then
    let device :=
      emit (LogVerbosef "UAPI: Updating transport_packet_magic_header" []) device in
    let device :=
      upd_aSecConf
        (set_transportPacketMagicHeader (transportPacketMagicHeader tempASecConf))
        device in
    (true, device,
     set_MessageTransportType (transportPacketMagicHeader (aSecConf device)) g)
  else
    let device := emit (LogVerbosef "UAPI: Using default transport type" []) device in
    (isASecOn, device, set_MessageTransportType 4 g).

(** [isSameMap] and the check of its length. *)
Definition postConfig_isSameMap (g : Globals) : gmap Z bool :=
  let isSameMap : gmap Z bool := ∅ in
  let isSameMap := <[MessageInitiationType g := true]> isSameMap in
  let isSameMap := <[MessageResponseType g := true]> isSameMap in
  let isSameMap := <[MessageCookieReplyType g := true]> isSameMap in
  <[MessageTransportType g := true]> isSameMap.

Definition postConfig_distinct (err : error) (g : Globals) : error :=
  let isSameMap := postConfig_isSameMap g in
  if negb (Nat.eqb (size isSameMap) 4) then
    fault err "magic headers should differ; got: init:%d; recv:%d; unde:%d; tran:%d"
          [MessageInitiationType g; MessageResponseType g;
           MessageCookieReplyType g; MessageTransportType g]
  else err.

(** The new sizes and the two dispatch tables.  A map literal whose keys
    coincide at run time keeps the entry written last. *)
Definition postConfig_tables (err : error) (device : Device B) (g : Globals)
  : error * Globals :=
  let newInitSize := int_add MessageInitiationSize (initPacketJunkSize (aSecConf device)) in
  let newResponseSize :=
    int_add MessageResponseSize (responsePacketJunkSize (aSecConf device)) in
  if newInitSize =? newResponseSize then
    (fault err "new init size:%d; and new response size:%d; should differ"
           [newInitSize; newResponseSize],
     g)
  else
    let g :=
      set_packetSizeToMsgType
        (<[MessageTransportSize := MessageTransportType g]>
           (<[MessageCookieReplySize := MessageCookieReplyType g]>
              (<[newResponseSize := MessageResponseType g]>
                 (<[newInitSize := MessageInitiationType g]> ∅))))
        g in
    let g :=
      set_msgTypeToJunkSize
        (<[MessageTransportType g := 0]>
           (<[MessageCookieReplyType g := 0]>
              (<[MessageResponseType g := responsePacketJunkSize (aSecConf device)]>
                 (<[MessageInitiationType g := initPacketJunkSize (aSecConf device)]>
                    ∅))))
        g in
    (err, g).

Definition handlePostConfig (tempASecConf : aSecConfType) (device : Device B)
           (g : Globals) : error * aSecConfType * Device B * Globals :=
  if negb (isSet tempASecConf) then (None, tempASecConf, device, g)
  else
    let '(err, isASecOn, tempASecConf, device) := postConfig_junk tempASecConf device in
    let '(isASecOn, device, g) := postConfig_magic tempASecConf isASecOn device g in
    let err := postConfig_distinct err g in
    let '(err, g) := postConfig_tables err device g in
    let device := set_isASecOn isASecOn device in
    (err, tempASecConf, device, g).

End PostConfig.

(** ** The bounded object pool *)

Module WaitPool.
Section Pool.
Context {A : Type} `{!EqDecision A}.

(** Modelled from the spec: [WaitPool] ([pools.go]) is not part of this
    file; only its test is.  The specification gives a pool a ceiling [max]
    (0: no gating), a factory, an in-flight counter and a freelist;
    [outstanding] lists the elements handed out and not yet returned. *)
Record WaitPool : Type := mk_WaitPool {
  pool : list A;
  new : A;
  count : Z;
  max : Z;
  outstanding : list A
}.

Definition NewWaitPool (max : Z) (new : A) : WaitPool :=
  mk_WaitPool [] new 0 max [].

(** Modelled from the spec: [Get] "blocks while the count of in-flight
    elements already equals [max]"; when admitted it increments the
    counter and answers a recycled element or a freshly constructed one.
    [None] is a [Get] that cannot complete in this state. *)
Definition Get (p : WaitPool) : option (A * WaitPool) :=
  if negb (max p =? 0) && (count p =? max p) then None
  else
    let '(x, free) :=
      match pool p with
      | x :: free => (x, free)
      | [] => (new p, [])
      end in
    Some (x, mk_WaitPool free (new p) (count p + 1) (max p) (x :: outstanding p)).

Fixpoint remove_one (x : A) (l : list A) : list A :=
  match l with
  | [] => []
  | y :: l' => if decide (x = y) then l' else y :: remove_one x l'
  end.

(** Modelled from the spec: [Put] "decrements the in-flight counter, wakes
    exactly one waiter (if any), and returns [e] to the freelist". *)
Definition Put (x : A) (p : WaitPool) : WaitPool :=
  mk_WaitPool (x :: pool p) (new p) (count p - 1) (max p) (remove_one x (outstanding p)).

(** A step of a trace: a [Get] that completes, or the [Put] of an element
    that is outstanding. *)
Inductive Step : Type :=
| StepGet
| StepPut (x : A).

Definition step (p : WaitPool) (s : Step) : option WaitPool :=
  match s with
  | StepGet => snd <$> Get p
  | StepPut x => if decide (x ∈ outstanding p) then Some (Put x p) else None
  end.

Fixpoint run (p : WaitPool) (t : list Step) : option WaitPool :=
  match t with
  | [] => Some p
  | s :: t' =>
      match step p s with
      | Some p' => run p' t'
      | None => None
      end
  end.

(** The number of elements in flight. *)
Definition in_flight (p : WaitPool) : Z := Z.of_nat (length (outstanding p)).

End Pool.
Arguments WaitPool : clear implicits.
End WaitPool.

(** ** The statements of the specification, as definitions *)

(** Rule 6 of the obfuscation configuration, in the specification's words:
    a supplied value above 4 is accepted, otherwise the canonical constant
    is used. *)
Definition resolveMagicHeader (supplied canonical : Z) : Z :=
  if supplied >? 4 then supplied else canonical.

Definition resolvedMagicHeaders (c : aSecConfType) : list Z :=
  [ resolveMagicHeader (initPacketMagicHeader c) 1;
    resolveMagicHeader (responsePacketMagicHeader c) 2;
    resolveMagicHeader (underloadPacketMagicHeader c) 3;
    resolveMagicHeader (transportPacketMagicHeader c) 4 ].

(** The message-type tags, in the order init, response, cookie reply,
    transport. *)
Definition messageTypes (g : Globals) : list Z :=
  [ MessageInitiationType g; MessageResponseType g;
    MessageCookieReplyType g; MessageTransportType g ].

(** [junkPacketMaxSize] after rule 2 (a maximum equal to the minimum is
    raised by one when junk packets are requested). *)
Definition adjustedJunkPacketMaxSize (c : aSecConfType) : Z :=
  if (junkPacketCount c >? 0) && (junkPacketMaxSize c =? junkPacketMinSize c)
  then int_add (junkPacketMaxSize c) 1
  else junkPacketMaxSize c.

(** Some validation rule of the specification (rules 1, 3, 4, 5, 7, 8) is
    violated by the supplied configuration. *)
Definition violatesRule (c : aSecConfType) : Prop :=
  junkPacketCount c < 0
  \/ adjustedJunkPacketMaxSize c >= MaxSegmentSize
  \/ adjustedJunkPacketMaxSize c < junkPacketMinSize c
  \/ int_add MessageInitiationSize (initPacketJunkSize c) >= MaxSegmentSize
  \/ int_add MessageResponseSize (responsePacketJunkSize c) >= MaxSegmentSize
  \/ ~ NoDup (resolvedMagicHeaders c)
  \/ int_add MessageInitiationSize (initPacketJunkSize c)
     = int_add MessageResponseSize (responsePacketJunkSize c).

(** Each [*Peer] is registered under one key. *)
Definition registry_wf {B} (device : Device B) : Prop :=
  forall k1 k2 p1 p2,
    peers_keyMap device !! k1 = Some p1 ->
    peers_keyMap device !! k2 = Some p2 ->
    peer_id p1 = peer_id p2 -> k1 = k2.

(** No leaf of the allowed-IPs trie references the peer at address [pid]. *)
Definition trie_free_of {B} (pid : Z) (device : Device B) : Prop :=
  forall e, e ∈ allowedips device -> entry_peer e ≠ pid.

(** The peer at address [pid] is under no key of the registry. *)
Definition unreachable {B} (pid : Z) (device : Device B) : Prop :=
  forall k p, peers_keyMap device !! k = Some p -> peer_id p ≠ pid.

(** The calls [removePeerLocked] makes for a peer, in their order. *)
Definition removal_events (pid : Z) (key : NoisePublicKey) : list Event :=
  [EvAllowedIPsRemoveByPeer pid; EvPeerStop pid; EvKeyMapDelete key].

(** The shape of the loops that remove peers: over the entries [l], the
    selected ones go through [removePeerLocked]. *)
Definition removeSelected {B} (sel : NoisePublicKey * Peer -> bool) (d : Device B)
           (l : list (NoisePublicKey * Peer)) : Device B :=
  foldl (fun d kp => if sel kp then removePeerLocked d kp.2 kp.1 else d) d l.

(** The requests of the lifecycle interface. *)
Inductive Request : Type :=
| ReqUp
| ReqDown
| ReqClose.

Definition request {B} `{!Bind B} (r : Request) (device : Device B) : error * Device B :=
  match r with
  | ReqUp => Up device
  | ReqDown => Down device
  | ReqClose => (None, Close device)
  end.

(** A sequence of requests, with the errors they answer. *)
Fixpoint requests {B} `{!Bind B} (rs : list Request) (device : Device B)
  : list error * Device B :=
  match rs with
  | [] => ([], device)
  | r :: rs' =>
      let '(err, device) := request r device in
      let '(errs, device) := requests rs' device in
      (err :: errs, device)
  end.

(** The line the logger receives when a closed device is asked to change
    state. *)
Definition isIgnoredLog (e : Event) : Prop :=
  exists want, e = LogVerbosef "Interface closed, ignored requested state %s" [want].

(** ** Instances used to run the code on concrete inputs *)

Definition exampleConstants : Constants :=
  {| MessageCookieReplySize := 64;
     MessageTransportSize := 32;
     UnderLoadAfterTime := 1000000000 |}.

(** A stand-in for Curve25519, good enough to run [SetPrivateKey]. *)
Definition exampleCrypto : Crypto :=
  {| publicKey sk := sk + 1000;
     sharedSecret sk pk := (sk * pk, None) |}.

(** A bind on which every operation succeeds, with one receive function. *)
Definition okBind : Bind unit :=
  {| bind_Open b port := (b, (1%nat, port, None));
     bind_Close b := (b, None);
     bind_SetMark b mark := (b, None);
     bind_BatchSize b := 1 |}.

(** A bind whose [Open] fails, and whose [Close] fails once [Open] has been
    attempted. *)
Definition failingBind : Bind bool :=
  {| bind_Open b port := (true, (0%nat, port, Some (ErrOpaque "bind: open failed")));
     bind_Close b := (b, if b then Some (ErrOpaque "bind: close failed") else None);
     bind_SetMark b mark := (b, None);
     bind_BatchSize b := 1 |}.

Definition zero_aSecConf : aSecConfType :=
  mk_aSecConfType false 0 0 0 0 0 0 0 0 0.

(** A device as [NewDevice] leaves it: down, no peers, nothing logged. *)
Definition newDevice {B} (bind : B) : Device B :=
  mk_Device deviceStateDown bind None 0 0 false 0 0 ∅ 0 [] None [] 1420 false false
            zero_aSecConf [].

(** The package-level variables as the package initialises them. *)
Definition initialGlobals : Globals :=
  mk_Globals 1 2 3 4
    (<[32 := 4]> (<[64 := 3]> (<[92 := 2]> (<[148 := 1]> ∅))))
    (<[4 := 0]> (<[3 := 0]> (<[2 := 0]> (<[1 := 0]> ∅)))).

(** The configuration of scenario E4 that reuses the init header for the
    transport header. *)
Definition duplicateMagic : aSecConfType :=
  mk_aSecConfType true 0 0 0 16 16 5 6 7 5.

(** A configuration whose junk sizes make the init and response messages
    the same length: 148 + 0 = 92 + 56. *)
Definition equalSizes : aSecConfType :=
  mk_aSecConfType true 0 0 0 0 56 0 0 0 0.

Definition examplePeer (id : Z) (remoteStatic : NoisePublicKey) : Peer :=
  mk_Peer id remoteStatic 0 0.

(** A device with two peers, each with one allowed prefix. *)
Definition twoPeerDevice : Device unit :=
  set_allowedips [mk_AllowedIPsEntry 167772160 24 1; mk_AllowedIPsEntry 167772416 24 2]
    (set_peers_keyMap (<[1007 := examplePeer 1 1007]> (<[2000 := examplePeer 2 2000]> ∅))
       (set_staticIdentity_privateKey 5 (newDevice tt))).

(** ** Further methods and vocabulary *)

Definition Bind_of {B} (device : Device B) : B := net_bind device.

(** [BindSetMark].  The bind of a device is non-nil (see [closeBindLocked]),
    so the test before [SetMark] is that of [isUp]. *)
Definition BindSetMark {B} `{!Bind B} (mark : Z) (device : Device B) : error * Device B :=
  (* check if modified *)
  if net_fwmark device =? mark then (None, device)
  else
    (* update fwmark on existing bind *)
    let device := set_net_fwmark mark device in
    let '(err, device) :=
      if isUp device then
        let '(bind, err) := bind_SetMark (net_bind device) mark in
        (err, set_net_bind bind device)
      else (None, device) in
    match err with
    | Some e => (Some e, device)
    | None =>
        (* clear cached source addresses *)
        let device :=
          range_keyMap
            (fun d _ peer => emit (EvPeerMarkEndpointSrcForClearing (peer_id peer)) d)
            device in
        (None, device)
    end.

(** [Wait]: the channel that [Close] closes; here, whether it is closed. *)
Definition Wait {B} (device : Device B) : bool := closed device.

(** The number of errors an error carries: itself and, through [%w], the
    ones it wraps. *)
Fixpoint errorDepth (e : GoError) : nat :=
  match e with
  | ErrOpaque _ => 1
  | IPCError _ _ _ None => 1
  | IPCError _ _ _ (Some w) => S (errorDepth w)
  end.

Definition chainLength (err : error) : nat :=
  match err with
  | Some e => errorDepth e
  | None => 0
  end.

(** 1 when the check fires, 0 otherwise. *)
Definition fired (b : bool) : nat := if b then 1%nat else 0%nat.

(** The checks of [handlePostConfig] a supplied configuration fails, counted
    as the code runs them on a device whose installed junk sizes are [ji]
    and [jr] afterwards. *)
Definition failedChecks (c : aSecConfType) (ji jr : Z) : nat :=
  let count := junkPacketCount c <? 0 in
  let bounds :=
    (adjustedJunkPacketMaxSize c >=? MaxSegmentSize)
    || (adjustedJunkPacketMaxSize c <? junkPacketMinSize c) in
  let init := int_add MessageInitiationSize (initPacketJunkSize c) >=? MaxSegmentSize in
  let resp := int_add MessageResponseSize (responsePacketJunkSize c) >=? MaxSegmentSize in
  let magic := negb (bool_decide (NoDup (resolvedMagicHeaders c))) in
  let sizes := int_add MessageInitiationSize ji =? int_add MessageResponseSize jr in
  (fired count + fired bounds + fired init + fired resp + fired magic + fired sizes)%nat.

(** Some parameter of the supplied configuration is not the default. *)
Definition nonDefault (c : aSecConfType) : bool :=
  negb (junkPacketCount c =? 0)
  || negb (junkPacketMinSize c =? 0)
  || negb (junkPacketMaxSize c =? 0)
  || negb (initPacketJunkSize c =? 0)
  || negb (responsePacketJunkSize c =? 0)
  || (initPacketMagicHeader c >? 4)
  || (responsePacketMagicHeader c >? 4)
  || (underloadPacketMagicHeader c >? 4)
  || (transportPacketMagicHeader c >? 4).

(** What the lifecycle methods leave alone: the registry, the routes, the
    identity, the cookie checker, the obfuscation configuration, the
    firewall mark, the load detector and the queues. *)
Definition lifecycle_frame {B} (d d' : Device B) : Prop :=
  peers_keyMap d' = peers_keyMap d
  /\ allowedips d' = allowedips d
  /\ staticIdentity_privateKey d' = staticIdentity_privateKey d
  /\ staticIdentity_publicKey d' = staticIdentity_publicKey d
  /\ cookieChecker d' = cookieChecker d
  /\ aSecConf d' = aSecConf d
  /\ isASecOn d' = isASecOn d
  /\ net_fwmark d' = net_fwmark d
  /\ rate_underLoadUntil d' = rate_underLoadUntil d
  /\ queue_handshake_c d' = queue_handshake_c d
  /\ closed d' = closed d.

(** The events by which receivers are announced and started. *)
Definition isReceiverEvent (e : Event) : bool :=
  match e with
  | EvNetStoppingAdd _ | EvQueueDecryptionAdd _ | EvQueueHandshakeAdd _
  | EvGoRoutineReceiveIncoming _ _ => true
  | _ => false
  end.

(** What [Close] does once the peers are gone. *)
Definition closing_events : list Event :=
  [EvQueueEncryptionDone; EvQueueDecryptionDone; EvQueueHandshakeDone;
   EvStateStoppingWait; EvRateLimiterClose; LogVerbosef "Device closed" []].

(** A bind whose [SetMark] fails. *)
Definition markFailingBind : Bind nat :=
  {| bind_Open b port := (b, (2%nat, port + 1, None));
     bind_Close b := (b, None);
     bind_SetMark b mark := (S b, Some (ErrOpaque "bind: setmark failed"));
     bind_BatchSize b := 8 |}.

(** The calls [closeBindLocked] makes. *)
Definition closeBind_events {B} (d : Device B) : list Event :=
  (match net_netlinkCancel d with
   | Some _ => [EvNetlinkCancel]
   | None => []
   end ++ [EvNetStoppingWait])%list.

(** The calls of the loop of [downLocked], one [Stop] per entry. *)
Definition stop_events {B} (d : Device B) : list Event :=
  map (fun kp : NoisePublicKey * Peer => EvPeerStop (peer_id kp.2))
      (map_to_list (peers_keyMap d)).

(** The calls of the loop of [upLocked]: [Start], and [SendKeepalive] for a
    peer with a positive keepalive interval. *)
Definition start_events {B} (d : Device B) : list Event :=
  concat (map (fun kp : NoisePublicKey * Peer =>
                 if persistentKeepaliveInterval kp.2 >? 0
                 then [EvPeerStart (peer_id kp.2); EvPeerSendKeepalive (peer_id kp.2)]
                 else [EvPeerStart (peer_id kp.2)])
              (map_to_list (peers_keyMap d))).

(** The calls of the loops that clear the cached source addresses. *)
Definition clearing_events {B} (d : Device B) : list Event :=
  map (fun kp : NoisePublicKey * Peer => EvPeerMarkEndpointSrcForClearing (peer_id kp.2))
      (map_to_list (peers_keyMap d)).

(** The announcements and starts of [n] receivers of batch size
    [batchSize]. *)
Definition receiver_events (n : nat) (batchSize : Z) : list Event :=
  ([EvNetStoppingAdd (Z.of_nat n); EvQueueDecryptionAdd (Z.of_nat n);
    EvQueueHandshakeAdd (Z.of_nat n)]
   ++ map (EvGoRoutineReceiveIncoming batchSize) (seq 0 n))%list.

(** The calls by which a peer is started. *)
Definition isPeerStart (e : Event) : bool :=
  match e with
  | EvPeerStart _ | EvPeerSendKeepalive _ => true
  | _ => false
  end.

(** The calls of the loop of [RemoveAllPeers]: the removal of every entry. *)
Definition removeAll_events {B} (d : Device B) : list Event :=
  concat (map (fun kp : NoisePublicKey * Peer => removal_events (peer_id kp.2) kp.1)
              (map_to_list (peers_keyMap d))).

(** The checks of the junk parameters that a supplied configuration
    fails. *)
Definition failedJunkChecks (c : aSecConfType) : nat :=
  let count := junkPacketCount c <? 0 in
  let bounds :=
    (adjustedJunkPacketMaxSize c >=? MaxSegmentSize)
    || (adjustedJunkPacketMaxSize c <? junkPacketMinSize c) in
  let init := int_add MessageInitiationSize (initPacketJunkSize c) >=? MaxSegmentSize in
  let resp := int_add MessageResponseSize (responsePacketJunkSize c) >=? MaxSegmentSize in
  (fired count + fired bounds + fired init + fired resp)%nat.

(** A configuration that passes every check: three junk packets whose
    maximum size equals the minimum, distinct junk sizes and magic headers. *)
Definition acceptedConf : aSecConfType :=
  mk_aSecConfType true 3 10 10 16 24 5 6 7 8.

(** [twoPeerDevice] with a third peer that asks for keepalives. *)
Definition threePeerDevice : Device unit :=
  set_peers_keyMap (<[3000 := mk_Peer 3 3000 0 25]> (peers_keyMap twoPeerDevice))
                   twoPeerDevice.

(** A device that is up with 128 messages in its handshake queue. *)
Definition loadedDevice : Device unit :=
  mk_Device deviceStateUp tt None 0 0 false 0 0 ∅ 0 [] None
            (repeat (mk_QueueHandshakeElement 1 []) 128) 1420 false false
            zero_aSecConf [].

(** * Properties *)

(** ** Setters and the trace *)

Section TraceLemmas.
Context {B : Type}.
Implicit Types (device d : Device B).

Lemma emits_nil d : emits [] d = d.
Proof. destruct d; unfold emits; simpl. by rewrite app_nil_r. Qed.

Lemma emit_emits e d : emit e d = emits [e] d.
Proof. reflexivity. Qed.

Lemma emits_emits es1 es2 d : emits es2 (emits es1 d) = emits (es1 ++ es2) d.
Proof. unfold emits; simpl. by rewrite app_assoc. Qed.

(** A loop whose body only makes collaborator calls appends them. *)
Lemma foldl_emits {X} (body : Device B -> X -> Device B) (g : X -> list Event) l :
  (forall d x, body d x = emits (g x) d) ->
  forall d, foldl body d l = emits (concat (map g l)) d.
Proof.
  intros Hbody. induction l as [|x l IH]; intros d; simpl.
  - by rewrite emits_nil.
  - by rewrite Hbody, IH, emits_emits.
Qed.

Lemma range_keyMap_emits (body : Device B -> NoisePublicKey -> Peer -> Device B)
      (g : NoisePublicKey * Peer -> list Event) d :
  (forall d k p, body d k p = emits (g (k, p)) d) ->
  range_keyMap body d = emits (concat (map g (map_to_list (peers_keyMap d)))) d.
Proof.
  intros Hbody. unfold range_keyMap.
  apply (foldl_emits (fun d kp => body d kp.1 kp.2) g).
  intros d' [k p]. apply Hbody.
Qed.

End TraceLemmas.

(** ** The lifecycle state machine *)

Section StateMachine.
Context {B : Type} `{!Bind B}.
Implicit Types (device d : Device B).

Lemma closeBindLocked_state d : state_state (closeBindLocked d).2 = state_state d.
Proof.
  unfold closeBindLocked.
  destruct (net_netlinkCancel d); simpl;
    destruct (bind_Close _) as [b err]; reflexivity.
Qed.

Lemma range_keyMap_state (body : Device B -> NoisePublicKey -> Peer -> Device B) d :
  (forall d k p, state_state (body d k p) = state_state d) ->
  state_state (range_keyMap body d) = state_state d.
Proof.
  intros Hbody. unfold range_keyMap.
  generalize (map_to_list (peers_keyMap d)). intros l. revert d.
  induction l as [|[k p] l IH]; intros d; simpl; [done|].
  by rewrite IH, Hbody.
Qed.

Lemma downLocked_state d : state_state (downLocked d).2 = state_state d.
Proof.
  unfold downLocked, BindClose.
  pose proof (closeBindLocked_state d) as Hc.
  destruct (closeBindLocked d) as [err d1]; simpl in *.
  rewrite range_keyMap_state by done.
  destruct err; simpl; congruence.
Qed.

(** What [changeState] does with a request to come up whose [upLocked]
    fails, written out. *)
Lemma changeState_up_failed d e d1 :
  get_deviceState d ≠ deviceStateClosed ->
  get_deviceState d ≠ deviceStateUp ->
  upLocked (set_state_state deviceStateUp d) = (Some e, d1) ->
  changeState deviceStateUp d =
    (Some e,
     emit (LogVerbosef "Interface state was %s, requested %s, now %s"
             [get_deviceState d; deviceStateUp; deviceStateDown])
          (downLocked (set_state_state deviceStateDown d1)).2).
Proof.
  intros Hclosed Hup Hfail. unfold changeState.
  destruct (Z.eqb_spec (get_deviceState d) deviceStateClosed) as [|_]; [done|].
  destruct (Z.eqb_spec deviceStateUp (get_deviceState d)) as [Heq|_]; [by rewrite <- Heq in Hup|].
  simpl (deviceStateUp =? deviceStateUp). cbv iota.
  rewrite Hfail.
  pose proof (downLocked_state (set_state_state deviceStateDown d1)) as Hs.
  destruct (downLocked (set_state_state deviceStateDown d1)) as [errDown d2].
  simpl in *. change (get_deviceState d2) with (state_state d2). by rewrite Hs.
Qed.

Lemma changeState_down d :
  get_deviceState d ≠ deviceStateClosed ->
  get_deviceState d ≠ deviceStateDown ->
  changeState deviceStateDown d =
    ((downLocked (set_state_state deviceStateDown d)).1,
     emit (LogVerbosef "Interface state was %s, requested %s, now %s"
             [get_deviceState d; deviceStateDown; deviceStateDown])
          (downLocked (set_state_state deviceStateDown d)).2).
Proof.
  intros Hclosed Hdown. unfold changeState.
  destruct (Z.eqb_spec (get_deviceState d) deviceStateClosed) as [|_]; [done|].
  destruct (Z.eqb_spec deviceStateDown (get_deviceState d)) as [Heq|_];
    [by rewrite <- Heq in Hdown|].
  simpl (deviceStateDown =? deviceStateUp). simpl (deviceStateDown =? deviceStateDown).
  cbv iota.
  pose proof (downLocked_state (set_state_state deviceStateDown d)) as Hs.
  destruct (downLocked (set_state_state deviceStateDown d)) as [errDown d2].
  simpl in *. change (get_deviceState d2) with (state_state d2). by rewrite Hs.
Qed.

(** C2 (as the code has it).  On a device that is not closed, a request to
    come up whose up-procedure fails with [e] stores Down, runs the
    down-procedure and answers [e] alone: whatever the down-procedure
    answers is dropped.  The error of the down-procedure is answered only
    by a request to go down, which does not run the up-procedure. *)
Theorem changeState_up_failure_answers_up_error d :
  get_deviceState d ≠ deviceStateClosed ->
  (forall e,
      get_deviceState d ≠ deviceStateUp ->
      (upLocked (set_state_state deviceStateUp d)).1 = Some e ->
      let d1 := (upLocked (set_state_state deviceStateUp d)).2 in
      let lowered := downLocked (set_state_state deviceStateDown d1) in
      (changeState deviceStateUp d).1 = Some e
      /\ get_deviceState (changeState deviceStateUp d).2 = deviceStateDown
      /\ (changeState deviceStateUp d).2 =
           emit (LogVerbosef "Interface state was %s, requested %s, now %s"
                   [get_deviceState d; deviceStateUp; deviceStateDown])
                lowered.2)
  /\ (get_deviceState d ≠ deviceStateDown ->
      (changeState deviceStateDown d).1 =
        (downLocked (set_state_state deviceStateDown d)).1).
Proof.
  intros Hclosed. split.
  - intros e Hup Hfail d1 lowered.
    destruct (upLocked (set_state_state deviceStateUp d)) as [err d1'] eqn:Hu.
    simpl in Hfail. subst err. subst d1 lowered. simpl.
    rewrite (changeState_up_failed d e d1' Hclosed Hup Hu). simpl.
    split; [done|]. split; [|done].
    unfold get_deviceState. simpl. apply downLocked_state.
  - intros Hdown. by rewrite changeState_down.
Qed.

Lemma emits_state es d : state_state (emits es d) = state_state d.
Proof. reflexivity. Qed.

Lemma request_closed r d :
  get_deviceState d = deviceStateClosed ->
  (request r d).1 = None
  /\ exists logs, Forall isIgnoredLog logs /\ (request r d).2 = emits logs d.
Proof.
  intros Hc. destruct r; simpl.
  - unfold Up, changeState. rewrite Hc. simpl. split; [done|].
    eexists [_]. split; [|reflexivity]. repeat constructor. by eexists.
  - unfold Down, changeState. rewrite Hc. simpl. split; [done|].
    eexists [_]. split; [|reflexivity]. repeat constructor. by eexists.
  - unfold Close, isClosed. rewrite Hc. simpl. split; [done|].
    exists []. split; [constructor|]. by rewrite emits_nil.
Qed.

(** C3.  The Closed state is absorbing: on a device whose state word is
    Closed, every sequence of Up, Down and Close requests answers nil each
    time, leaves the state word Closed, and changes nothing of the device
    but the log, which receives only "ignored" lines; neither the up- nor
    the down-procedure runs. *)
Theorem closed_is_absorbing d rs :
  get_deviceState d = deviceStateClosed ->
  Forall (fun err => err = None) (requests rs d).1
  /\ get_deviceState (requests rs d).2 = deviceStateClosed
  /\ exists logs, Forall isIgnoredLog logs /\ (requests rs d).2 = emits logs d.
Proof.
  revert d. induction rs as [|r rs IH]; intros d Hc; simpl.
  - split; [constructor|]. split; [done|].
    exists []. split; [constructor|]. by rewrite emits_nil.
  - destruct (request_closed r d Hc) as (Herr & logs & Hlogs & Hd).
    destruct (request r d) as [err d1]. simpl in *. subst err d1.
    assert (Hc' : get_deviceState (emits logs d) = deviceStateClosed) by done.
    destruct (IH _ Hc') as (Herrs & Hst & logs' & Hlogs' & Hd').
    destruct (requests rs (emits logs d)) as [errs d2]. simpl in *.
    split; [by constructor|]. split; [done|].
    exists (logs ++ logs')%list. split; [by apply Forall_app|].
    by rewrite Hd', emits_emits.
Qed.

End StateMachine.

(** ** Load detection *)

Section LoadDetector.
Context {B : Type} `{!Constants}.
Implicit Types (device d : Device B).

Lemma wrap_int_id x : - 2 ^ 63 <= x < 2 ^ 63 -> wrap_int x = x.
Proof. intros Hx. unfold wrap_int. rewrite Z.mod_small; lia. Qed.

(** C6.  With a handshake queue of depth at least [QueueHandshakeSize/8],
    that is 128, [IsUnderLoad] answers true and stores the instant
    [now + UnderLoadAfterTime] (as [UnixNano] gives it: the sum itself when
    it fits an [int64]) into [underLoadUntil], changing nothing else; below
    that depth it answers true exactly when [now] is earlier than the stored
    [underLoadUntil], and changes nothing. *)
Theorem IsUnderLoad_threshold_and_hysteresis (now : Z) d :
  let depth := Z.of_nat (length (queue_handshake_c d)) in
  (128 <= depth ->
     (IsUnderLoad now d).1 = true
     /\ (IsUnderLoad now d).2
        = set_rate_underLoadUntil (UnixNano (now + UnderLoadAfterTime)) d
     /\ (- 2 ^ 63 <= now + UnderLoadAfterTime < 2 ^ 63 ->
         rate_underLoadUntil (IsUnderLoad now d).2 = now + UnderLoadAfterTime))
  /\ (depth < 128 ->
      ((IsUnderLoad now d).1 = true <-> UnixNano now < rate_underLoadUntil d)
      /\ (IsUnderLoad now d).2 = d).
Proof.
  intros depth. unfold IsUnderLoad. fold depth.
  change (QueueHandshakeSize ÷ 8) with 128.
  split; intros Hd.
  - destruct (Z.geb_spec depth 128) as [_|Hlt]; [|lia]. simpl.
    split; [done|]. split; [done|].
    intros Hfit. unfold UnixNano. by apply wrap_int_id.
  - destruct (Z.geb_spec depth 128) as [Hge|_]; [lia|]. simpl.
    split; [|done].
    destruct (Z.gtb_spec (rate_underLoadUntil d) (UnixNano now)); split; intros; try done; lia.
Qed.

End LoadDetector.

(** ** Static identity: the unchanged key *)

Section SameKey.
Context {B : Type} `{!Crypto}.
Implicit Types (device d : Device B).

(** C9.  [SetPrivateKey] with the key that is already installed answers nil
    and leaves the whole device as it was: the peer registry and every
    peer in it, the static identity, the cookie checker, and the record of
    collaborator calls (none is made). *)
Theorem SetPrivateKey_same_key_is_noop (sk : NoisePrivateKey) d :
  staticIdentity_privateKey d = sk ->
  SetPrivateKey sk d = (None, d).
Proof.
  intros Hsame. unfold SetPrivateKey, NoisePrivateKey_Equals.
  rewrite Hsame. by rewrite Z.eqb_refl.
Qed.

End SameKey.

(** ** Obfuscation configuration *)

Section PostConfigProperties.
Context {B : Type} `{!Constants}.
Implicit Types (device d : Device B) (g : Globals) (t : aSecConfType).

(** C10.  A configuration whose [isSet] flag is false makes
    [handlePostConfig] answer nil and change nothing: the device (its
    [aSecConf], its [isASecOn] flag, its log), the message-type tags and the
    two dispatch tables are what they were, and so is the configuration
    passed in. *)
Theorem handlePostConfig_unset_is_noop t d g :
  isSet t = false ->
  handlePostConfig t d g = (None, t, d, g).
Proof. intros Hunset. unfold handlePostConfig. by rewrite Hunset. Qed.

Lemma fault_invalid err fmt args : isConfigInvalid (fault err fmt args).
Proof. destruct err; simpl; eexists; split; reflexivity. Qed.

Lemma fault_nilOrInvalid err fmt args : nilOrInvalid (fault err fmt args).
Proof. intros e He. destruct err; simpl in He; by simplify_eq. Qed.

Lemma nilOrInvalid_None : nilOrInvalid None.
Proof. by intros e He. Qed.

Lemma nilOrInvalid_ipcErrorf fmt args w :
  nilOrInvalid (Some (ipcErrorf IpcErrorInvalid fmt args w)).
Proof. intros e He. by simplify_eq. Qed.

Lemma nilOrInvalid_Some err : nilOrInvalid err -> err ≠ None -> isConfigInvalid err.
Proof. intros Hok Hne. destruct err as [e|]; [|done]. exists e. split; [done|]. by apply Hok. Qed.

Lemma isConfigInvalid_not_None err : isConfigInvalid err -> err ≠ None.
Proof. intros (e & -> & _). done. Qed.

Create HintDb postconfig.
#[local] Hint Resolve fault_invalid fault_nilOrInvalid nilOrInvalid_None
  nilOrInvalid_ipcErrorf : postconfig.

Ltac case_cond :=
  match goal with
  | |- context [if ?b then _ else _] =>
      let E := fresh "E" in destruct b eqn:E
  end.

Ltac bool_to_Z :=
  repeat match goal with
    | H : (_ && _) = true |- _ => apply andb_true_iff in H; destruct H
    | H : (_ && _) = false |- _ => apply andb_false_iff in H
    | H : negb _ = true |- _ => apply negb_true_iff in H
    | H : negb _ = false |- _ => apply negb_false_iff in H
    | H : (_ <? _) = true |- _ => apply Z.ltb_lt in H
    | H : (_ <? _) = false |- _ => apply Z.ltb_ge in H
    | H : (_ >? _) = true |- _ => rewrite Z.gtb_ltb in H
    | H : (_ >? _) = false |- _ => rewrite Z.gtb_ltb in H
    | H : (_ >=? _) = true |- _ => rewrite Z.geb_leb in H; apply Z.leb_le in H
    | H : (_ >=? _) = false |- _ => rewrite Z.geb_leb in H; apply Z.leb_gt in H
    | H : (_ =? _) = true |- _ => apply Z.eqb_eq in H
    | H : (_ =? _) = false |- _ => apply Z.eqb_neq in H
    end.

(** The junk stretch: its error, and what it installs. *)
Lemma postConfig_junk_spec t d :
  let r := postConfig_junk t d in
  nilOrInvalid r.1.1.1
  /\ (r.1.1.1 ≠ None <->
      junkPacketCount t < 0
      \/ adjustedJunkPacketMaxSize t >= MaxSegmentSize
      \/ adjustedJunkPacketMaxSize t < junkPacketMinSize t
      \/ int_add MessageInitiationSize (initPacketJunkSize t) >= MaxSegmentSize
      \/ int_add MessageResponseSize (responsePacketJunkSize t) >= MaxSegmentSize)
  /\ (int_add MessageInitiationSize (initPacketJunkSize t) < MaxSegmentSize ->
      initPacketJunkSize (aSecConf r.2) = initPacketJunkSize t)
  /\ (int_add MessageResponseSize (responsePacketJunkSize t) < MaxSegmentSize ->
      responsePacketJunkSize (aSecConf r.2) = responsePacketJunkSize t)
  /\ initPacketMagicHeader r.1.2 = initPacketMagicHeader t
  /\ responsePacketMagicHeader r.1.2 = responsePacketMagicHeader t
  /\ underloadPacketMagicHeader r.1.2 = underloadPacketMagicHeader t
  /\ transportPacketMagicHeader r.1.2 = transportPacketMagicHeader t.
Proof.
  unfold postConfig_junk, adjustedJunkPacketMaxSize.
  cbn [aSecConf upd_aSecConf set_aSecConf junkPacketCount set_junkPacketCount
       set_junkPacketMinSize].
  destruct (junkPacketCount t <? 0) eqn:E1;
    destruct ((junkPacketCount t >? 0) && (junkPacketMaxSize t =? junkPacketMinSize t))
      eqn:E2;
    cbn [junkPacketMaxSize junkPacketMinSize set_junkPacketMaxSize];
    repeat case_cond; cbn -[MaxSegmentSize fault int_add] in *.
  all: (split; [auto with postconfig|]).
  all: bool_to_Z.
  all: repeat split; try done; try (intros; lia).
  all: try (intros _; by apply isConfigInvalid_not_None, fault_invalid).
Qed.

(** The magic-header stretch: the tags it assigns, and what it leaves
    alone. *)
Lemma postConfig_magic_spec t on d g :
  let r := postConfig_magic t on d g in
  messageTypes r.2 = resolvedMagicHeaders t
  /\ packetSizeToMsgType r.2 = packetSizeToMsgType g
  /\ msgTypeToJunkSize r.2 = msgTypeToJunkSize g
  /\ initPacketJunkSize (aSecConf r.1.2) = initPacketJunkSize (aSecConf d)
  /\ responsePacketJunkSize (aSecConf r.1.2) = responsePacketJunkSize (aSecConf d).
Proof.
  unfold postConfig_magic, messageTypes, resolvedMagicHeaders, resolveMagicHeader.
  destruct (initPacketMagicHeader t >? 4);
    destruct (responsePacketMagicHeader t >? 4);
    destruct (underloadPacketMagicHeader t >? 4);
    destruct (transportPacketMagicHeader t >? 4);
    cbn; done.
Qed.

Lemma NoDup_four (a b c e : Z) :
  NoDup [a; b; c; e] <-> a ≠ b /\ a ≠ c /\ a ≠ e /\ b ≠ c /\ b ≠ e /\ c ≠ e.
Proof.
  rewrite !NoDup_cons, !not_elem_of_cons.
  pose proof (NoDup_nil_2 (A:=Z)) as Hnil.
  pose proof (not_elem_of_nil (A:=Z)) as Hnot.
  split.
  - intros ((Hab & Hac & Hae & _) & (Hbc & Hbe & _) & (Hce & _) & _). done.
  - intros (Hab & Hac & Hae & Hbc & Hbe & Hce).
    repeat split; try done; by apply NoDup_singleton.
Qed.

(** [len(isSameMap) == 4] says that the four tags are pairwise distinct. *)
Lemma isSameMap_size g :
  size (postConfig_isSameMap g) = 4%nat <-> NoDup (messageTypes g).
Proof.
  unfold postConfig_isSameMap, messageTypes. rewrite NoDup_four.
  rewrite !map_size_insert, map_size_empty.
  rewrite !lookup_insert, !lookup_empty.
  repeat case_decide; simpl; split; intros; try lia; try done; naive_solver.
Qed.

Lemma postConfig_distinct_spec err g :
  nilOrInvalid err ->
  nilOrInvalid (postConfig_distinct err g)
  /\ (postConfig_distinct err g ≠ None <-> err ≠ None \/ ~ NoDup (messageTypes g)).
Proof.
  intros Hok. unfold postConfig_distinct.
  pose proof (isSameMap_size g) as Hsize.
  destruct (Nat.eqb_spec (size (postConfig_isSameMap g)) 4) as [Heq|Hne]; simpl.
  - split; [done|]. split; [by left|]. intros [|Hdup]; [done|].
    destruct Hdup. by apply Hsize.
  - split; [auto with postconfig|]. split.
    + intros _. right. intros Hnd. by apply Hne, Hsize.
    + intros _. by apply isConfigInvalid_not_None, fault_invalid.
Qed.

(** The last stretch: the tables are assigned unless the two new sizes
    coincide; the tags are not touched. *)
Lemma postConfig_tables_spec err d g :
  nilOrInvalid err ->
  let newInitSize := int_add MessageInitiationSize (initPacketJunkSize (aSecConf d)) in
  let newResponseSize :=
    int_add MessageResponseSize (responsePacketJunkSize (aSecConf d)) in
  let r := postConfig_tables err d g in
  nilOrInvalid r.1
  /\ (r.1 ≠ None <-> err ≠ None \/ newInitSize = newResponseSize)
  /\ messageTypes r.2 = messageTypes g
  /\ (newInitSize = newResponseSize ->
      packetSizeToMsgType r.2 = packetSizeToMsgType g
      /\ msgTypeToJunkSize r.2 = msgTypeToJunkSize g).
Proof.
  intros Hok newInitSize newResponseSize. unfold postConfig_tables.
  fold newInitSize newResponseSize.
  destruct (Z.eqb_spec newInitSize newResponseSize) as [Heq|Hne]; simpl.
  - split; [auto with postconfig|]. split; [|done].
    split; [by right|]. intros _. by apply isConfigInvalid_not_None, fault_invalid.
  - split; [done|]. split; [|done]. split; [by left|]. by intros [|].
Qed.

Lemma or_reassociate (P1 P2 P3 P4 P5 P6 P7 : Prop) :
  ((P1 \/ P2 \/ P3 \/ P4 \/ P5) \/ P6) \/ P7 <-> P1 \/ P2 \/ P3 \/ P4 \/ P5 \/ P6 \/ P7.
Proof. tauto. Qed.

Lemma resolvedMagicHeaders_ext t t' :
  initPacketMagicHeader t' = initPacketMagicHeader t ->
  responsePacketMagicHeader t' = responsePacketMagicHeader t ->
  underloadPacketMagicHeader t' = underloadPacketMagicHeader t ->
  transportPacketMagicHeader t' = transportPacketMagicHeader t ->
  resolvedMagicHeaders t' = resolvedMagicHeaders t.
Proof. unfold resolvedMagicHeaders. by intros -> -> -> ->. Qed.

(** [handlePostConfig] on a configuration that is set, stretch by
    stretch. *)
Lemma handlePostConfig_set_spec t d g :
  isSet t = true ->
  let r := handlePostConfig t d g in
  let newInitSize :=
    int_add MessageInitiationSize (initPacketJunkSize (aSecConf r.1.2)) in
  let newResponseSize :=
    int_add MessageResponseSize (responsePacketJunkSize (aSecConf r.1.2)) in
  nilOrInvalid r.1.1.1
  /\ (r.1.1.1 ≠ None <-> violatesRule t)
  /\ messageTypes r.2 = resolvedMagicHeaders t
  /\ (newInitSize = newResponseSize ->
      r.1.1.1 ≠ None
      /\ packetSizeToMsgType r.2 = packetSizeToMsgType g
      /\ msgTypeToJunkSize r.2 = msgTypeToJunkSize g).
Proof.
  intros Hset. unfold handlePostConfig. rewrite Hset. simpl negb. cbv iota.
  pose proof (postConfig_junk_spec t d) as Hj.
  destruct (postConfig_junk t d) as [[[err1 on1] t1] d1].
  simpl in Hj. destruct Hj as (Hok1 & Herr1 & Hinit & Hresp & Hm1 & Hm2 & Hm3 & Hm4).
  pose proof (postConfig_magic_spec t1 on1 d1 g) as Hm.
  destruct (postConfig_magic t1 on1 d1 g) as [[on2 d2] g2].
  simpl in Hm. destruct Hm as (Htypes & Htab1 & Htab2 & Hji & Hjr).
  rewrite (resolvedMagicHeaders_ext t t1) in Htypes by done.
  destruct (postConfig_distinct_spec err1 g2 Hok1) as (Hok2 & Herr2).
  pose proof (postConfig_tables_spec (postConfig_distinct err1 g2) d2 g2 Hok2) as Ht.
  destruct (postConfig_tables (postConfig_distinct err1 g2) d2 g2) as [err3 g3].
  simpl in Ht. destruct Ht as (Hok3 & Herr3 & Htypes3 & Htabs).
  cbn [fst snd aSecConf set_isASecOn].
  split; [done|]. split; [|split].
  - rewrite Herr3, Herr2, Herr1, Htypes. unfold violatesRule.
    rewrite Hji, Hjr.
    destruct (Z_lt_ge_dec (int_add MessageInitiationSize (initPacketJunkSize t))
                          MaxSegmentSize) as [Hi|Hi];
      [|split; intros _;
        [do 3 right; left; exact Hi | left; left; do 3 right; left; exact Hi]].
    destruct (Z_lt_ge_dec (int_add MessageResponseSize (responsePacketJunkSize t))
                          MaxSegmentSize) as [Hr|Hr];
      [|split; intros _;
        [do 4 right; left; exact Hr | left; left; do 4 right; exact Hr]].
    rewrite (Hinit Hi), (Hresp Hr). apply or_reassociate.
  - by rewrite Htypes3.
  - intros Heq. destruct (Htabs Heq) as [-> ->].
    split; [|done]. apply Herr3. by right.
Qed.

(** C5.  On a configuration that is set, [handlePostConfig] leaves in each
    of the four message-type tags the supplied magic header when it is
    above 4 and the canonical constant (1, 2, 3, 4) otherwise, and answers
    an [IpcErrorInvalid] error when the four resolved values are not
    pairwise distinct. *)
Theorem handlePostConfig_resolves_magic_headers t d g :
  isSet t = true ->
  messageTypes (handlePostConfig t d g).2 = resolvedMagicHeaders t
  /\ (~ NoDup (resolvedMagicHeaders t) ->
      isConfigInvalid (handlePostConfig t d g).1.1.1).
Proof.
  intros Hset.
  destruct (handlePostConfig_set_spec t d g Hset) as (Hok & Herr & Htypes & _).
  split; [done|]. intros Hdup.
  apply nilOrInvalid_Some; [done|]. apply Herr.
  unfold violatesRule. tauto.
Qed.

(** C1 (as the code has it).  On a configuration that is set,
    [handlePostConfig] answers an [IpcErrorInvalid] error exactly when a
    validation rule is violated (nil otherwise); and when the init and
    response sizes computed from the junk sizes then installed coincide, it
    answers that error and leaves both dispatch tables,
    [packetSizeToMsgType] and [msgTypeToJunkSize], as they were.  Nothing is
    said of [aSecConf] and of the message-type tags, which are written
    while the checks run. *)
Theorem handlePostConfig_rejects_and_guards_tables t d g :
  isSet t = true ->
  let r := handlePostConfig t d g in
  (violatesRule t -> isConfigInvalid r.1.1.1)
  /\ (~ violatesRule t -> r.1.1.1 = None)
  /\ (int_add MessageInitiationSize (initPacketJunkSize (aSecConf r.1.2))
      = int_add MessageResponseSize (responsePacketJunkSize (aSecConf r.1.2)) ->
      isConfigInvalid r.1.1.1
      /\ packetSizeToMsgType r.2 = packetSizeToMsgType g
      /\ msgTypeToJunkSize r.2 = msgTypeToJunkSize g).
Proof.
  intros Hset r.
  destruct (handlePostConfig_set_spec t d g Hset) as (Hok & Herr & _ & Htabs).
  fold r in Hok, Herr, Htabs. split; [|split].
  - intros Hv. apply nilOrInvalid_Some; [done|]. by apply Herr.
  - intros Hv. destruct (r.1.1.1) as [e|] eqn:He; [|done].
    destruct Hv. by apply Herr.
  - intros Heq. destruct (Htabs Heq) as (Hne & Hp & Hm).
    split; [by apply nilOrInvalid_Some|done].
Qed.

End PostConfigProperties.

(** ** The peer registry and the allowed-IPs table *)

Section Registry.
Context {B : Type}.
Implicit Types (device d : Device B) (m : gmap NoisePublicKey Peer)
         (l : list (NoisePublicKey * Peer)) (sel : NoisePublicKey * Peer -> bool).

Lemma removeSelected_cons sel d kp l :
  removeSelected sel d (kp :: l)
  = removeSelected sel (if sel kp then removePeerLocked d kp.2 kp.1 else d) l.
Proof. reflexivity. Qed.

Lemma removeSelected_keyMap sel l d :
  peers_keyMap (removeSelected sel d l)
  = foldl (fun m kp => if sel kp then delete kp.1 m else m) (peers_keyMap d) l.
Proof.
  revert d. induction l as [|kp l IH]; intros d; [done|].
  rewrite removeSelected_cons, IH. cbn [foldl]. by destruct (sel kp).
Qed.

Lemma removeSelected_allowedips sel l d :
  allowedips (removeSelected sel d l)
  = foldl (fun a kp => if sel kp then AllowedIPs_RemoveByPeer a kp.2 else a)
          (allowedips d) l.
Proof.
  revert d. induction l as [|kp l IH]; intros d; [done|].
  rewrite removeSelected_cons, IH. cbn [foldl]. by destruct (sel kp).
Qed.

Lemma removeSelected_trace sel l d :
  trace (removeSelected sel d l)
  = (trace d
     ++ concat (map (fun kp => if sel kp then removal_events (peer_id kp.2) kp.1 else []) l))%list.
Proof.
  revert d. induction l as [|kp l IH]; intros d.
  - simpl. by rewrite app_nil_r.
  - rewrite removeSelected_cons, IH. cbn [map concat].
    destruct (sel kp); [|done].
    cbn [removePeerLocked emit trace set_trace set_peers_keyMap set_allowedips].
    unfold removal_events. by rewrite <- !app_assoc.
Qed.

Lemma removeSelected_privateKey sel l d :
  staticIdentity_privateKey (removeSelected sel d l) = staticIdentity_privateKey d.
Proof.
  revert d. induction l as [|kp l IH]; intros d; [done|].
  rewrite removeSelected_cons, IH. by destruct (sel kp).
Qed.

(** What survives the deletions. *)
Lemma foldl_delete_lookup sel l m k p :
  foldl (fun m kp => if sel kp then delete kp.1 m else m) m l !! k = Some p
  <-> m !! k = Some p /\ forall p', (k, p') ∈ l -> sel (k, p') = false.
Proof.
  revert m. induction l as [|[k' p'] l IH]; intros m; simpl.
  - split; [|by intros [? _]]. intros Hm. split; [done|].
    intros p' Hin. by apply elem_of_nil in Hin.
  - rewrite IH. split.
    + intros [Hm Hl]. destruct (sel (k', p')) eqn:Hsel.
      * apply lookup_delete_Some in Hm as [Hne Hm]. split; [done|].
        intros p'' Hin. apply elem_of_cons in Hin as [Heq|Hin]; [|by apply Hl].
        by simplify_eq.
      * split; [done|]. intros p'' Hin.
        apply elem_of_cons in Hin as [Heq|Hin]; [|by apply Hl].
        by simplify_eq.
    + intros [Hm Hl]. split.
      * destruct (sel (k', p')) eqn:Hsel; [|done].
        apply lookup_delete_Some. split; [|done].
        intros ->. specialize (Hl p' ltac:(left)). congruence.
      * intros p'' Hin. apply Hl. by right.
Qed.

Lemma removeSelected_lookup sel d k p :
  peers_keyMap (removeSelected sel d (map_to_list (peers_keyMap d))) !! k = Some p
  <-> peers_keyMap d !! k = Some p /\ sel (k, p) = false.
Proof.
  rewrite removeSelected_keyMap, foldl_delete_lookup. split.
  - intros [Hm Hl]. split; [done|]. apply Hl. by apply elem_of_map_to_list.
  - intros [Hm Hsel]. split; [done|]. intros p' Hin.
    apply elem_of_map_to_list in Hin. by simplify_eq.
Qed.

(** What remains of the allowed-IPs table. *)
Lemma foldl_RemoveByPeer_elem sel l (a : AllowedIPs) e :
  e ∈ foldl (fun a kp => if sel kp then AllowedIPs_RemoveByPeer a kp.2 else a) a l
  <-> e ∈ a /\ forall kp, kp ∈ l -> sel kp = true -> entry_peer e ≠ peer_id kp.2.
Proof.
  revert a. induction l as [|kp l IH]; intros a; simpl.
  - split; [|by intros [? _]]. intros Ha. split; [done|].
    intros kp Hin. by apply elem_of_nil in Hin.
  - rewrite IH. split.
    + intros [Ha Hl]. destruct (sel kp) eqn:Hsel.
      * apply list_elem_of_filter in Ha as [Hne Ha]. split; [done|].
        intros kp' Hin Hs. apply elem_of_cons in Hin as [->|Hin]; [done|by apply Hl].
      * split; [done|]. intros kp' Hin Hs.
        apply elem_of_cons in Hin as [->|Hin]; [congruence|by apply Hl].
    + intros [Ha Hl]. split.
      * destruct (sel kp) eqn:Hsel; [|done].
        apply list_elem_of_filter. split; [|done]. apply Hl; [by left|done].
      * intros kp' Hin. apply Hl. by right.
Qed.

Lemma removeSelected_trie_free sel d l key peer :
  (key, peer) ∈ l -> sel (key, peer) = true ->
  trie_free_of (peer_id peer) (removeSelected sel d l).
Proof.
  intros Hin Hsel e He. rewrite removeSelected_allowedips in He.
  apply foldl_RemoveByPeer_elem in He as [_ Hl]. by apply (Hl (key, peer)).
Qed.

Lemma removeSelected_events sel d l key peer :
  (key, peer) ∈ l -> sel (key, peer) = true ->
  exists t1 t2,
    trace (removeSelected sel d l)
    = (trace d ++ t1 ++ removal_events (peer_id peer) key ++ t2)%list.
Proof.
  intros Hin Hsel. rewrite removeSelected_trace.
  apply list_elem_of_split in Hin as (l1 & l2 & ->).
  rewrite map_app, concat_app. simpl. rewrite Hsel. simpl.
  by eexists _, _.
Qed.

Lemma removePeerLocked_trace d peer key :
  trace (removePeerLocked d peer key)
  = (trace d ++ removal_events (peer_id peer) key)%list.
Proof. unfold removePeerLocked. simpl. by rewrite <- !app_assoc. Qed.

End Registry.

(** ** Static identity rotation *)

Section Rotation.
Context {B : Type} `{!Crypto}.
Implicit Types (device d : Device B).

Lemma concat_map_singleton {X Y} (f : X -> Y) (l : list X) :
  concat (map (fun x => [f x]) l) = map f l.
Proof. induction l as [|x l IH]; simpl; [done|]. by rewrite IH. Qed.

(** [SetPrivateKey] with a key that differs from the installed one, written
    out: the removal loop, the new key material, the recomputed peers, and
    the calls of [ExpireCurrentKeypairs]. *)
Lemma SetPrivateKey_new_key sk d :
  sk ≠ staticIdentity_privateKey d ->
  let sel := fun kp : NoisePublicKey * Peer =>
               NoisePublicKey_Equals (handshake_remoteStatic kp.2) (publicKey sk) in
  let d1 := removeSelected sel d (map_to_list (peers_keyMap d)) in
  let m := (fun peer =>
              set_precomputedStaticStatic
                (sharedSecret sk (handshake_remoteStatic peer)).1 peer)
             <$> peers_keyMap d1 in
  SetPrivateKey sk d
  = (None,
     emits (map (fun peer => EvPeerExpireCurrentKeypairs (peer_id peer)) (map_to_list m).*2)
           (set_peers_keyMap m
              (set_cookieChecker (Some (publicKey sk))
                 (set_staticIdentity_publicKey (publicKey sk)
                    (set_staticIdentity_privateKey sk d1))))).
Proof.
  intros Hne sel d1 m. unfold SetPrivateKey, NoisePrivateKey_Equals.
  destruct (Z.eqb_spec sk (staticIdentity_privateKey d)) as [|_]; [done|].
  f_equal.
  change (range_keyMap _ d) with d1.
  cbn [staticIdentity_privateKey set_staticIdentity_privateKey set_peers_keyMap
       set_staticIdentity_publicKey set_cookieChecker peers_keyMap].
  fold m.
  rewrite (foldl_emits _ (fun peer => [EvPeerExpireCurrentKeypairs (peer_id peer)]))
    by done.
  by rewrite concat_map_singleton.
Qed.

(** C4.  After [SetPrivateKey sk] with a key other than the installed one
    (it answers nil and installs [sk] with its public key): every peer left
    in the registry has a remote static other than the public key of [sk],
    has its [precomputedStaticStatic] equal to the shared secret of [sk] and
    its remote static, and has received [ExpireCurrentKeypairs]; and the
    peers left are those whose remote static differs from that public key,
    under their keys. *)
Theorem SetPrivateKey_rotates_identity sk d :
  sk ≠ staticIdentity_privateKey d ->
  let d' := (SetPrivateKey sk d).2 in
  (SetPrivateKey sk d).1 = None
  /\ staticIdentity_privateKey d' = sk
  /\ staticIdentity_publicKey d' = publicKey sk
  /\ (forall k p,
        peers_keyMap d' !! k = Some p ->
        handshake_remoteStatic p ≠ publicKey sk
        /\ handshake_precomputedStaticStatic p
           = (sharedSecret sk (handshake_remoteStatic p)).1
        /\ EvPeerExpireCurrentKeypairs (peer_id p) ∈ trace d')
  /\ (forall k p0,
        peers_keyMap d !! k = Some p0 ->
        handshake_remoteStatic p0 ≠ publicKey sk ->
        peers_keyMap d' !! k
        = Some (set_precomputedStaticStatic
                  (sharedSecret sk (handshake_remoteStatic p0)).1 p0)).
Proof.
  intros Hne d'. subst d'. rewrite (SetPrivateKey_new_key sk d Hne).
  cbn [fst snd]. split; [done|].
  split; [reflexivity|].
  split; [done|].
  cbn [peers_keyMap emits set_trace trace set_peers_keyMap].
  split.
  - intros k p Hp.
    pose proof Hp as Hp'.
    apply lookup_fmap_Some in Hp' as (p0 & <- & Hp0).
    apply removeSelected_lookup in Hp0 as [Hp0 Hsel].
    unfold NoisePublicKey_Equals in Hsel. simpl in Hsel. apply Z.eqb_neq in Hsel.
    split; [done|]. split; [done|].
    apply elem_of_app. right.
    apply (list_elem_of_fmap_2 (fun peer => EvPeerExpireCurrentKeypairs (peer_id peer))).
    apply (list_elem_of_fmap_2 snd _ (k, _)).
    by apply elem_of_map_to_list.
  - intros k p0 Hp0 Hrs.
    rewrite lookup_fmap.
    assert (peers_keyMap
              (removeSelected
                 (fun kp : NoisePublicKey * Peer =>
                    NoisePublicKey_Equals (handshake_remoteStatic kp.2) (publicKey sk))
                 d (map_to_list (peers_keyMap d))) !! k = Some p0) as ->; [|done].
    apply removeSelected_lookup. split; [done|].
    unfold NoisePublicKey_Equals. simpl. by apply Z.eqb_neq.
Qed.

End Rotation.

(** ** Removing peers *)

Section PeerRemoval.
Context {B : Type} `{!Crypto}.
Implicit Types (device d : Device B).

Lemma RemovePeer_spec d key peer :
  registry_wf d ->
  peers_keyMap d !! key = Some peer ->
  trie_free_of (peer_id peer) (RemovePeer key d)
  /\ unreachable (peer_id peer) (RemovePeer key d)
  /\ trace (RemovePeer key d) = (trace d ++ removal_events (peer_id peer) key)%list.
Proof.
  intros Hwf Hpeer. unfold RemovePeer. rewrite Hpeer.
  split; [|split].
  - intros e He. simpl in He. unfold AllowedIPs_RemoveByPeer in He.
    by apply list_elem_of_filter in He as [Hne _].
  - intros k p Hp. simpl in Hp.
    apply lookup_delete_Some in Hp as [Hne Hp].
    intros Hid. apply Hne. symmetry. by apply (Hwf k key p peer).
  - apply removePeerLocked_trace.
Qed.

Lemma RemoveAllPeers_spec d key peer :
  peers_keyMap d !! key = Some peer ->
  trie_free_of (peer_id peer) (RemoveAllPeers d)
  /\ unreachable (peer_id peer) (RemoveAllPeers d)
  /\ exists t1 t2,
      trace (RemoveAllPeers d)
      = (trace d ++ t1 ++ removal_events (peer_id peer) key ++ t2)%list.
Proof.
  intros Hpeer. unfold RemoveAllPeers.
  change (range_keyMap _ d)
    with (removeSelected (fun _ => true) d (map_to_list (peers_keyMap d))).
  apply elem_of_map_to_list in Hpeer.
  split; [|split].
  - intros e He. simpl in He.
    by apply (removeSelected_trie_free (fun _ => true) d _ key peer Hpeer eq_refl e).
  - intros k p Hp. simpl in Hp. by rewrite lookup_empty in Hp.
  - simpl. by apply (removeSelected_events (fun _ => true)).
Qed.

Lemma SetPrivateKey_removal_spec sk d key peer :
  registry_wf d ->
  sk ≠ staticIdentity_privateKey d ->
  peers_keyMap d !! key = Some peer ->
  handshake_remoteStatic peer = publicKey sk ->
  trie_free_of (peer_id peer) (SetPrivateKey sk d).2
  /\ unreachable (peer_id peer) (SetPrivateKey sk d).2
  /\ exists t1 t2,
      trace (SetPrivateKey sk d).2
      = (trace d ++ t1 ++ removal_events (peer_id peer) key ++ t2)%list.
Proof.
  intros Hwf Hne Hpeer Hself.
  rewrite (SetPrivateKey_new_key sk d Hne). cbn [snd].
  set (sel := fun kp : NoisePublicKey * Peer =>
                NoisePublicKey_Equals (handshake_remoteStatic kp.2) (publicKey sk)).
  assert (Hsel : sel (key, peer) = true).
  { unfold sel, NoisePublicKey_Equals. simpl. by apply Z.eqb_eq. }
  pose proof Hpeer as Hin. apply elem_of_map_to_list in Hin.
  split; [|split].
  - intros e He. simpl in He.
    by apply (removeSelected_trie_free sel d _ key peer Hin Hsel e).
  - intros k p Hp. simpl in Hp.
    apply lookup_fmap_Some in Hp as (p0 & <- & Hp0).
    apply removeSelected_lookup in Hp0 as [Hp0 Hsel0]. simpl.
    intros Hid. assert (k = key) as -> by by apply (Hwf k key p0 peer).
    simplify_eq. congruence.
  - destruct (removeSelected_events sel d _ key peer Hin Hsel) as (t1 & t2 & Ht).
    simpl. rewrite Ht. eexists t1, (t2 ++ _)%list.
    by rewrite <- !app_assoc.
Qed.

(** C7.  In a registry where each peer is under one key, a peer removed by
    [RemovePeer], by [RemoveAllPeers] or as a self-loop by [SetPrivateKey]
    goes through [RemoveByPeer], then [Stop], then the deletion of its key,
    in that order; and once the operation has returned no entry of the
    allowed-IPs table references the peer and no key of the registry leads
    to it. *)
Theorem peer_removal_clears_routes_before_registry d :
  registry_wf d ->
  forall key peer,
    peers_keyMap d !! key = Some peer ->
    (trie_free_of (peer_id peer) (RemovePeer key d)
     /\ unreachable (peer_id peer) (RemovePeer key d)
     /\ trace (RemovePeer key d) = (trace d ++ removal_events (peer_id peer) key)%list)
    /\ (trie_free_of (peer_id peer) (RemoveAllPeers d)
        /\ unreachable (peer_id peer) (RemoveAllPeers d)
        /\ exists t1 t2,
            trace (RemoveAllPeers d)
            = (trace d ++ t1 ++ removal_events (peer_id peer) key ++ t2)%list)
    /\ (forall sk,
          sk ≠ staticIdentity_privateKey d ->
          handshake_remoteStatic peer = publicKey sk ->
          trie_free_of (peer_id peer) (SetPrivateKey sk d).2
          /\ unreachable (peer_id peer) (SetPrivateKey sk d).2
          /\ exists t1 t2,
              trace (SetPrivateKey sk d).2
              = (trace d ++ t1 ++ removal_events (peer_id peer) key ++ t2)%list).
Proof.
  intros Hwf key peer Hpeer. split; [|split].
  - by apply RemovePeer_spec.
  - by apply RemoveAllPeers_spec.
  - intros sk Hne Hself. by apply SetPrivateKey_removal_spec.
Qed.

End PeerRemoval.

(** ** The bounded object pool *)

Section PoolProperties.
Context {A : Type} `{!EqDecision A}.
Implicit Types (p : WaitPool.WaitPool A) (t : list (WaitPool.Step (A:=A))).

Lemma remove_one_length (x : A) (l : list A) :
  x ∈ l -> Z.of_nat (length (WaitPool.remove_one x l)) = Z.of_nat (length l) - 1.
Proof.
  induction l as [|y l IH]; intros Hin; simpl.
  - by apply elem_of_nil in Hin.
  - destruct (decide (x = y)) as [->|Hne]; simpl; [lia|].
    apply elem_of_cons in Hin as [->|Hin]; [done|].
    rewrite Nat2Z.inj_succ, (IH Hin). lia.
Qed.

(** The invariant of a gated pool: the counter is the number of elements in
    flight, and it does not exceed the ceiling. *)
Lemma step_invariant p s p' :
  0 < WaitPool.max p ->
  WaitPool.count p = WaitPool.in_flight p ->
  WaitPool.in_flight p <= WaitPool.max p ->
  WaitPool.step p s = Some p' ->
  WaitPool.max p' = WaitPool.max p
  /\ WaitPool.count p' = WaitPool.in_flight p'
  /\ WaitPool.in_flight p' <= WaitPool.max p'.
Proof.
  intros Hmax Hcount Hle Hstep. unfold WaitPool.in_flight in *.
  destruct s as [|x]; simpl in Hstep.
  - unfold WaitPool.Get in Hstep.
    destruct (WaitPool.max p =? 0) eqn:E0; [apply Z.eqb_eq in E0; lia|].
    destruct (Z.eqb_spec (WaitPool.count p) (WaitPool.max p)) as [Heq|Hne];
      simpl in Hstep; [done|].
    destruct (WaitPool.pool p) as [|x free]; simpl in Hstep; simplify_eq; simpl;
      rewrite Nat2Z.inj_succ; lia.
  - destruct (decide (x ∈ WaitPool.outstanding p)) as [Hin|]; [|done].
    simplify_eq. simpl. rewrite (remove_one_length x _ Hin). lia.
Qed.

Lemma run_invariant t p p' :
  0 < WaitPool.max p ->
  WaitPool.count p = WaitPool.in_flight p ->
  WaitPool.in_flight p <= WaitPool.max p ->
  WaitPool.run p t = Some p' ->
  WaitPool.max p' = WaitPool.max p
  /\ WaitPool.count p' = WaitPool.in_flight p'
  /\ WaitPool.in_flight p' <= WaitPool.max p'.
Proof.
  revert p. induction t as [|s t IH]; intros p Hmax Hcount Hle Hrun; simpl in Hrun.
  - by simplify_eq.
  - destruct (WaitPool.step p s) as [p1|] eqn:Hstep; [|done].
    destruct (step_invariant p s p1 Hmax Hcount Hle Hstep) as (Hm & Hc & Hl).
    destruct (IH p1) as (Hm' & Hc' & Hl'); try done; [lia|].
    split; [congruence|done].
Qed.

Lemma run_app t1 t2 p :
  WaitPool.run p (t1 ++ t2)
  = match WaitPool.run p t1 with
    | Some p1 => WaitPool.run p1 t2
    | None => None
    end.
Proof.
  revert p. induction t1 as [|s t1 IH]; intros p; simpl; [done|].
  by destruct (WaitPool.step p s).
Qed.

(** C8.  For a pool built with a ceiling [max > 0] and every trace of
    completed [Get]s and [Put]s of outstanding elements, at every instant of
    the trace (after each of its prefixes) the number of elements in flight
    is the pool's counter and does not exceed [max]; and a [Get] cannot
    complete (it blocks) exactly when that number equals [max]. *)
Theorem WaitPool_ceiling (max : Z) (new : A) t p :
  0 < max ->
  WaitPool.run (WaitPool.NewWaitPool max new) t = Some p ->
  forall t1 t2,
    t = (t1 ++ t2)%list ->
    exists p1,
      WaitPool.run (WaitPool.NewWaitPool max new) t1 = Some p1
      /\ WaitPool.count p1 = WaitPool.in_flight p1
      /\ WaitPool.in_flight p1 <= max
      /\ (WaitPool.Get p1 = None <-> WaitPool.in_flight p1 = max).
Proof.
  intros Hmax Hrun t1 t2 ->. rewrite run_app in Hrun.
  destruct (WaitPool.run (WaitPool.NewWaitPool max new) t1) as [p1|] eqn:Hrun1; [|done].
  exists p1. split; [done|].
  assert (Hle0 : WaitPool.in_flight (WaitPool.NewWaitPool max new)
                 <= WaitPool.max (WaitPool.NewWaitPool max new)).
  { unfold WaitPool.in_flight. simpl. lia. }
  destruct (run_invariant t1 (WaitPool.NewWaitPool max new) p1 Hmax eq_refl Hle0 Hrun1)
    as (Hm & Hc & Hl).
  simpl in Hm. rewrite Hm in Hl. split; [done|]. split; [done|].
  unfold WaitPool.Get. rewrite Hm, <- Hc.
  destruct (Z.eqb_spec max 0) as [|_]; [lia|].
  destruct (Z.eqb_spec (WaitPool.count p1) max) as [Heq|Hne]; simpl; [done|].
  destruct (WaitPool.pool p1); split; intros; done.
Qed.

End PoolProperties.


(** ** Further properties of the device's methods *)
Lemma Device_ext {B} (d d' : Device B) :
  state_state d = state_state d' ->
  net_bind d = net_bind d' ->
  net_netlinkCancel d = net_netlinkCancel d' ->
  net_port d = net_port d' ->
  net_fwmark d = net_fwmark d' ->
  net_brokenRoaming d = net_brokenRoaming d' ->
  staticIdentity_privateKey d = staticIdentity_privateKey d' ->
  staticIdentity_publicKey d = staticIdentity_publicKey d' ->
  peers_keyMap d = peers_keyMap d' ->
  rate_underLoadUntil d = rate_underLoadUntil d' ->
  allowedips d = allowedips d' ->
  cookieChecker d = cookieChecker d' ->
  queue_handshake_c d = queue_handshake_c d' ->
  tun_mtu d = tun_mtu d' ->
  closed d = closed d' ->
  isASecOn d = isASecOn d' ->
  aSecConf d = aSecConf d' ->
  trace d = trace d' ->
  d = d'.
Proof. destruct d, d'; simpl; intros; by subst. Qed.

Ltac dev_norm :=
  cbn [emit emits set_trace set_net_bind set_net_port set_net_netlinkCancel
       set_state_state set_net_fwmark set_peers_keyMap set_allowedips set_closed
       set_staticIdentity_privateKey set_staticIdentity_publicKey set_cookieChecker
       set_rate_underLoadUntil set_isASecOn set_aSecConf
       state_state net_bind net_netlinkCancel net_port net_fwmark net_brokenRoaming
       staticIdentity_privateKey staticIdentity_publicKey peers_keyMap
       rate_underLoadUntil allowedips cookieChecker queue_handshake_c tun_mtu closed
       isASecOn aSecConf trace fst snd].

Ltac dev_fields :=
  apply Device_ext; dev_norm; rewrite <- ?app_assoc; cbn [app]; reflexivity.

Ltac dev_eq :=
  cbn [fst snd];
  first [ dev_fields | apply (f_equal2 pair); [reflexivity | dev_fields] ].

Section Lifecycle.
Context {B : Type} `{!Bind B}.
Implicit Types (device d : Device B).

Lemma closeBindLocked_eq d :
  closeBindLocked d
  = ((bind_Close (net_bind d)).2,
     emits (closeBind_events d) (set_net_bind (bind_Close (net_bind d)).1 d)).
Proof.
  unfold closeBindLocked, closeBind_events.
  destruct (net_netlinkCancel d); dev_norm;
    destruct (bind_Close (net_bind d)) as [b err]; dev_eq.
Qed.

Lemma downLocked_eq d :
  downLocked d
  = ((bind_Close (net_bind d)).2,
     emits (closeBind_events d
            ++ match (bind_Close (net_bind d)).2 with
               | Some e => [LogErrorf "Bind close failed: %v" e]
               | None => []
               end
            ++ stop_events d)
           (set_net_bind (bind_Close (net_bind d)).1 d)).
Proof.
  unfold downLocked, BindClose. rewrite closeBindLocked_eq.
  rewrite (range_keyMap_emits _ (fun kp => [EvPeerStop (peer_id kp.2)])) by done.
  rewrite concat_map_singleton.
  destruct ((bind_Close (net_bind d)).2) as [e|]; unfold stop_events; dev_eq.
Qed.

(** [BindUpdate], outcome by outcome. *)
Lemma BindUpdate_inv d :
  let c := bind_Close (net_bind d) in
  match c.2 with
  | Some e => BindUpdate d = (Some e, emits (closeBind_events d) (set_net_bind c.1 d))
  | None =>
      if negb (isUp d)
      then BindUpdate d = (None, emits (closeBind_events d) (set_net_bind c.1 d))
      else
        let o := bind_Open c.1 (net_port d) in
        match o.2.2 with
        | Some e =>
            BindUpdate d
            = (Some e, emits (closeBind_events d) (set_net_port 0 (set_net_bind o.1 d)))
        | None =>
            let m := if negb (net_fwmark d =? 0)
                     then bind_SetMark o.1 (net_fwmark d)
                     else (o.1, None) in
            match m.2 with
            | Some e =>
                BindUpdate d
                = (Some e,
                   emits (closeBind_events d)
                         (set_net_netlinkCancel None
                            (set_net_port o.2.1.2 (set_net_bind m.1 d))))
            | None =>
                BindUpdate d
                = (None,
                   emits (closeBind_events d ++ clearing_events d
                          ++ receiver_events o.2.1.1 (bind_BatchSize m.1)
                          ++ [LogVerbosef "UDP bind has been updated" []])
                         (set_net_netlinkCancel None
                            (set_net_port o.2.1.2 (set_net_bind m.1 d))))
            end
        end
  end.
Proof.
  unfold BindUpdate. rewrite closeBindLocked_eq.
  destruct (bind_Close (net_bind d)) as [b1 [e|]] eqn:Hc; cbn [fst snd]; [done|].
  set (d1 := emits (closeBind_events d) (set_net_bind b1 d)).
  change (isUp d1) with (isUp d).
  destruct (isUp d); cbn [negb]; [|done].
  change (net_bind d1) with b1. change (net_port d1) with (net_port d).
  destruct (bind_Open b1 (net_port d)) as [b2 [[n port] [e|]]] eqn:Ho; cbn [fst snd];
    [reflexivity|].
  unfold startRouteListener. cbv beta iota zeta.
  set (d2 := set_net_netlinkCancel None (set_net_port port (set_net_bind b2 d1))).
  change (net_fwmark d2) with (net_fwmark d). change (net_bind d2) with b2.
  assert (Hloops : forall (bF : Z) (dev : Device B),
    foldl (fun d0 fn => emit (EvGoRoutineReceiveIncoming bF fn) d0) dev (seq 0 n)
    = emits (map (EvGoRoutineReceiveIncoming bF) (seq 0 n)) dev).
  { intros bF dev.
    rewrite (foldl_emits _ (fun fn => [EvGoRoutineReceiveIncoming bF fn])) by done.
    by rewrite concat_map_singleton. }
  assert (Hclear : forall dev : Device B,
    range_keyMap
      (fun d0 _ peer => emit (EvPeerMarkEndpointSrcForClearing (peer_id peer)) d0) dev
    = emits (clearing_events dev) dev).
  { intros dev.
    rewrite (range_keyMap_emits _
               (fun kp => [EvPeerMarkEndpointSrcForClearing (peer_id kp.2)])) by done.
    by rewrite concat_map_singleton. }
  destruct (net_fwmark d =? 0) eqn:Hf; cbn [negb fst snd]; cbv beta iota zeta.
  - rewrite Hclear, Hloops. clear Hclear Hloops.
    subst d2 d1. unfold clearing_events, receiver_events. dev_eq.
  - destruct (bind_SetMark b2 (net_fwmark d)) as [b3 [e|]] eqn:Hm; cbn [fst snd];
      cbv beta iota zeta; [reflexivity|].
    rewrite Hclear, Hloops. clear Hclear Hloops.
    subst d2 d1. unfold clearing_events, receiver_events. dev_eq.
Qed.

Lemma BindUpdate_frame d :
  state_state (BindUpdate d).2 = state_state d
  /\ lifecycle_frame d (BindUpdate d).2.
Proof.
  pose proof (BindUpdate_inv d) as Hinv. cbv zeta in Hinv. unfold lifecycle_frame.
  destruct ((bind_Close (net_bind d)).2); [by rewrite Hinv|].
  destruct (negb (isUp d)); [by rewrite Hinv|].
  destruct ((bind_Open (bind_Close (net_bind d)).1 (net_port d)).2.2);
    [by rewrite Hinv|].
  destruct (negb (net_fwmark d =? 0));
    match type of Hinv with
    | match ?x with _ => _ end => destruct x
    end; by rewrite Hinv.
Qed.

Lemma BindUpdate_failure_trace d :
  (BindUpdate d).1 ≠ None ->
  trace (BindUpdate d).2 = (trace d ++ closeBind_events d)%list.
Proof.
  intros Hfail.
  pose proof (BindUpdate_inv d) as Hinv. cbv zeta in Hinv.
  destruct ((bind_Close (net_bind d)).2); [by rewrite Hinv|].
  destruct (negb (isUp d)); [by rewrite Hinv in Hfail|].
  destruct ((bind_Open (bind_Close (net_bind d)).1 (net_port d)).2.2);
    [by rewrite Hinv|].
  destruct (negb (net_fwmark d =? 0));
    match type of Hinv with
    | match ?x with _ => _ end => destruct x
    end; by rewrite Hinv in *.
Qed.

(** X1: [BindUpdate] that answers an error has called nothing but the
    closing of the previous bind -- no peer is touched, and no receiver is
    announced to the wait groups or started -- and has left the state word,
    the registry and the firewall mark as they were. *)
Theorem BindUpdate_failure_starts_nothing d :
  (BindUpdate d).1 ≠ None ->
  trace (BindUpdate d).2 = (trace d ++ closeBind_events d)%list
  /\ state_state (BindUpdate d).2 = state_state d
  /\ peers_keyMap (BindUpdate d).2 = peers_keyMap d
  /\ net_fwmark (BindUpdate d).2 = net_fwmark d.
Proof.
  intros Hfail. split; [by apply BindUpdate_failure_trace|].
  destruct (BindUpdate_frame d) as [Hs Hf]. split; [exact Hs|].
  unfold lifecycle_frame in Hf. tauto.
Qed.

Lemma BindUpdate_success_trace d :
  isUp d = true ->
  (BindUpdate d).1 = None ->
  let opened := bind_Open (bind_Close (net_bind d)).1 (net_port d) in
  net_port (BindUpdate d).2 = opened.2.1.2
  /\ net_netlinkCancel (BindUpdate d).2 = None
  /\ trace (BindUpdate d).2
     = (trace d ++ closeBind_events d ++ clearing_events d
        ++ receiver_events opened.2.1.1 (bind_BatchSize (net_bind (BindUpdate d).2))
        ++ [LogVerbosef "UDP bind has been updated" []])%list.
Proof.
  intros Hup Hok opened. subst opened.
  pose proof (BindUpdate_inv d) as Hinv. cbv zeta in Hinv. rewrite Hup in Hinv.
  cbn [negb] in Hinv.
  destruct ((bind_Close (net_bind d)).2); [by rewrite Hinv in Hok|].
  destruct ((bind_Open (bind_Close (net_bind d)).1 (net_port d)).2.2);
    [by rewrite Hinv in Hok|].
  destruct (negb (net_fwmark d =? 0));
    match type of Hinv with
    | match ?x with _ => _ end => destruct x
    end; try (by rewrite Hinv in Hok);
    rewrite Hinv; dev_norm; by rewrite <- ?app_assoc.
Qed.

(** X2: on a device that is up, [BindUpdate] that answers nil has installed
    the port the bind opened, has no route listener (default build), and
    has, after closing the previous bind and clearing the cached sources of
    every peer, announced to the three wait groups as many receivers as the
    bind returned receive functions and started exactly those; the state
    word and the registry are as they were. *)
Theorem BindUpdate_success_receivers d :
  isUp d = true ->
  (BindUpdate d).1 = None ->
  let opened := bind_Open (bind_Close (net_bind d)).1 (net_port d) in
  net_port (BindUpdate d).2 = opened.2.1.2
  /\ net_netlinkCancel (BindUpdate d).2 = None
  /\ trace (BindUpdate d).2
     = (trace d ++ closeBind_events d ++ clearing_events d
        ++ receiver_events opened.2.1.1 (bind_BatchSize (net_bind (BindUpdate d).2))
        ++ [LogVerbosef "UDP bind has been updated" []])%list
  /\ state_state (BindUpdate d).2 = state_state d
  /\ peers_keyMap (BindUpdate d).2 = peers_keyMap d.
Proof.
  intros Hup Hok opened.
  destruct (BindUpdate_success_trace d Hup Hok) as (Hport & Hcancel & Htrace).
  destruct (BindUpdate_frame d) as [Hs Hf].
  split; [exact Hport|]. split; [exact Hcancel|]. split; [exact Htrace|].
  split; [exact Hs|]. unfold lifecycle_frame in Hf. tauto.
Qed.

Lemma upLocked_eq d :
  upLocked d
  = match (BindUpdate d).1 with
    | Some e => (Some e, emit (LogErrorf "Unable to update bind: %v" e) (BindUpdate d).2)
    | None => (None, emits (start_events (BindUpdate d).2) (BindUpdate d).2)
    end.
Proof.
  unfold upLocked. destruct (BindUpdate d) as [[e|] d1]; cbn [fst snd]; [done|].
  f_equal. unfold start_events.
  apply (range_keyMap_emits _
           (fun kp => if persistentKeepaliveInterval kp.2 >? 0
                      then [EvPeerStart (peer_id kp.2); EvPeerSendKeepalive (peer_id kp.2)]
                      else [EvPeerStart (peer_id kp.2)])).
  intros d' k p. cbn [snd]. destruct (persistentKeepaliveInterval p >? 0); dev_eq.
Qed.

Lemma upLocked_frame d :
  state_state (upLocked d).2 = state_state d /\ lifecycle_frame d (upLocked d).2.
Proof.
  rewrite upLocked_eq. destruct (BindUpdate_frame d) as [Hs Hf].
  destruct ((BindUpdate d).1); cbn [snd]; split; try exact Hs; exact Hf.
Qed.

Lemma downLocked_frame d : lifecycle_frame d (downLocked d).2.
Proof. rewrite downLocked_eq. unfold lifecycle_frame. dev_norm. done. Qed.

Lemma lifecycle_frame_refl d : lifecycle_frame d d.
Proof. unfold lifecycle_frame. done. Qed.

Lemma lifecycle_frame_trans d1 d2 d3 :
  lifecycle_frame d1 d2 -> lifecycle_frame d2 d3 -> lifecycle_frame d1 d3.
Proof. unfold lifecycle_frame. intros H12 H23. intuition congruence. Qed.

Lemma emit_frame e d : lifecycle_frame d (emit e d).
Proof. unfold lifecycle_frame. done. Qed.

Lemma set_state_frame v d : lifecycle_frame d (set_state_state v d).
Proof. unfold lifecycle_frame. done. Qed.

(** [changeState], outcome by outcome. *)
Lemma changeState_cases want d :
  let old := get_deviceState d in
  let line now := LogVerbosef "Interface state was %s, requested %s, now %s" [old; want; now] in
  (old = deviceStateClosed
   /\ changeState want d
      = (None, emit (LogVerbosef "Interface closed, ignored requested state %s" [want]) d))
  \/ (old ≠ deviceStateClosed /\ want = old /\ changeState want d = (None, d))
  \/ (old ≠ deviceStateClosed /\ want ≠ old /\ want = deviceStateUp
      /\ exists d1,
          upLocked (set_state_state deviceStateUp d) = (None, d1)
          /\ changeState want d = (None, emit (line deviceStateUp) d1))
  \/ (old ≠ deviceStateClosed /\ want ≠ old /\ want = deviceStateUp
      /\ exists e d1,
          upLocked (set_state_state deviceStateUp d) = (Some e, d1)
          /\ changeState want d
             = (Some e,
                emit (line deviceStateDown)
                     (downLocked (set_state_state deviceStateDown d1)).2))
  \/ (old ≠ deviceStateClosed /\ want ≠ old /\ want = deviceStateDown
      /\ changeState want d
         = ((downLocked (set_state_state deviceStateDown d)).1,
            emit (line deviceStateDown)
                 (downLocked (set_state_state deviceStateDown d)).2))
  \/ (old ≠ deviceStateClosed /\ want ≠ old /\ want ≠ deviceStateUp
      /\ want ≠ deviceStateDown
      /\ changeState want d = (None, emit (line old) d)).
Proof.
  intros old line.
  destruct (Z.eq_dec old deviceStateClosed) as [Hc|Hc].
  { left. split; [done|]. unfold changeState. fold old. rewrite Hc. reflexivity. }
  right.
  destruct (Z.eq_dec want old) as [Hw|Hw].
  { left. split; [done|]. split; [done|]. unfold changeState. fold old.
    destruct (Z.eqb_spec old deviceStateClosed) as [|_]; [done|].
    destruct (Z.eqb_spec want old) as [_|]; done. }
  right.
  destruct (Z.eq_dec want deviceStateUp) as [Hu|Hu].
  { subst want.
    destruct (upLocked (set_state_state deviceStateUp d)) as [[e|] d1] eqn:Hup.
    - right. left. split; [done|]. split; [done|]. split; [done|].
      exists e, d1. split; [done|].
      apply changeState_up_failed; [done| |done]. by intros Heq; apply Hw.
    - left. split; [done|]. split; [done|]. split; [done|].
      exists d1. split; [done|].
      destruct (upLocked_frame (set_state_state deviceStateUp d)) as [Hs _].
      rewrite Hup in Hs. cbn [snd] in Hs.
      unfold changeState. fold old.
      destruct (Z.eqb_spec old deviceStateClosed) as [|_]; [done|].
      destruct (Z.eqb_spec deviceStateUp old) as [|_]; [done|].
      cbn [Z.eqb deviceStateUp Pos.eqb]. rewrite Hup. cbv beta iota zeta.
      unfold line. unfold get_deviceState at 1. by rewrite Hs. }
  right. right.
  destruct (Z.eq_dec want deviceStateDown) as [Hd|Hd].
  { subst want. left. split; [done|]. split; [done|]. split; [done|].
    apply changeState_down; [done|]. by intros Heq; apply Hw. }
  right. split; [done|]. split; [done|]. split; [done|]. split; [done|].
  unfold changeState. fold old.
  destruct (Z.eqb_spec old deviceStateClosed) as [|_]; [done|].
  destruct (Z.eqb_spec want old) as [|_]; [done|].
  destruct (Z.eqb_spec want deviceStateUp) as [|_]; [done|].
  destruct (Z.eqb_spec want deviceStateDown) as [|_]; [done|].
  reflexivity.
Qed.

(** X3: [changeState] -- and so [Up] and [Down] -- touches only the state
    word, the bind with its port and route listener, and the log: the peer
    registry, the allowed-IPs table, the static identity, the cookie
    checker, the obfuscation configuration, the firewall mark, the load
    detector, the handshake queue and the closed latch are left as they
    were. *)
Theorem changeState_frame want d : lifecycle_frame d (changeState want d).2.
Proof.
  destruct (changeState_cases want d)
    as [(_ & ->)|[(_ & _ & ->)|[(_ & _ & _ & d1 & Hup & ->)
       |[(_ & _ & _ & e & d1 & Hup & ->)|[(_ & _ & _ & ->)|(_ & _ & _ & _ & ->)]]]]];
    cbn [snd].
  - apply emit_frame.
  - apply lifecycle_frame_refl.
  - destruct (upLocked_frame (set_state_state deviceStateUp d)) as [_ Hf].
    rewrite Hup in Hf.
    eapply lifecycle_frame_trans; [apply (set_state_frame deviceStateUp)|].
    eapply lifecycle_frame_trans; [exact Hf|apply emit_frame].
  - destruct (upLocked_frame (set_state_state deviceStateUp d)) as [_ Hf].
    rewrite Hup in Hf.
    eapply lifecycle_frame_trans; [apply (set_state_frame deviceStateUp)|].
    eapply lifecycle_frame_trans; [exact Hf|].
    eapply lifecycle_frame_trans; [apply (set_state_frame deviceStateDown)|].
    eapply lifecycle_frame_trans; [apply downLocked_frame|apply emit_frame].
  - eapply lifecycle_frame_trans; [apply (set_state_frame deviceStateDown)|].
    eapply lifecycle_frame_trans; [apply downLocked_frame|apply emit_frame].
  - apply emit_frame.
Qed.

(** The state word after [changeState], outcome by outcome. *)
Lemma changeState_state want d :
  get_deviceState (changeState want d).2
  = if get_deviceState d =? deviceStateClosed then deviceStateClosed
    else if want =? get_deviceState d then want
    else if want =? deviceStateUp then
           match (changeState want d).1 with
           | None => deviceStateUp
           | Some _ => deviceStateDown
           end
    else if want =? deviceStateDown then deviceStateDown
    else get_deviceState d.
Proof.
  destruct (changeState_cases want d)
    as [(Hc & ->)|[(Hc & Hw & ->)|[(Hc & Hw & Hu & d1 & Hup & ->)
       |[(Hc & Hw & Hu & e & d1 & Hup & ->)|[(Hc & Hw & Hd & ->)
       |(Hc & Hw & Hu & Hd & ->)]]]]];
    cbn [fst snd].
  - change (get_deviceState (emit _ d)) with (get_deviceState d).
    by rewrite Hc.
  - destruct (Z.eqb_spec (get_deviceState d) deviceStateClosed) as [|_]; [done|].
    by destruct (Z.eqb_spec want (get_deviceState d)).
  - destruct (Z.eqb_spec (get_deviceState d) deviceStateClosed) as [|_]; [done|].
    destruct (Z.eqb_spec want (get_deviceState d)) as [|_]; [done|].
    destruct (Z.eqb_spec want deviceStateUp) as [_|]; [|done].
    destruct (upLocked_frame (set_state_state deviceStateUp d)) as [Hs _].
    rewrite Hup in Hs. exact Hs.
  - destruct (Z.eqb_spec (get_deviceState d) deviceStateClosed) as [|_]; [done|].
    destruct (Z.eqb_spec want (get_deviceState d)) as [|_]; [done|].
    destruct (Z.eqb_spec want deviceStateUp) as [_|]; [|done].
    apply (downLocked_state (set_state_state deviceStateDown d1)).
  - destruct (Z.eqb_spec (get_deviceState d) deviceStateClosed) as [|_]; [done|].
    destruct (Z.eqb_spec want (get_deviceState d)) as [|_]; [done|].
    subst want. cbn [Z.eqb deviceStateDown deviceStateUp].
    apply (downLocked_state (set_state_state deviceStateDown d)).
  - change (get_deviceState (emit _ d)) with (get_deviceState d).
    destruct (Z.eqb_spec (get_deviceState d) deviceStateClosed) as [|_]; [done|].
    destruct (Z.eqb_spec want (get_deviceState d)) as [|_]; [done|].
    destruct (Z.eqb_spec want deviceStateUp) as [|_]; [done|].
    by destruct (Z.eqb_spec want deviceStateDown).
Qed.

(** X4: when [changeState] answers an error the state word is Down, whatever
    was requested: a failed Up has been taken back, and a Down is Down even
    if the bind could not be closed. *)
Theorem changeState_error_leaves_down want d :
  (changeState want d).1 ≠ None ->
  get_deviceState (changeState want d).2 = deviceStateDown.
Proof.
  intros Herr. rewrite changeState_state.
  destruct (changeState_cases want d)
    as [(Hc & Heq)|[(Hc & Hw & Heq)|[(Hc & Hw & Hu & d1 & Hup & Heq)
       |[(Hc & Hw & Hu & e & d1 & Hup & Heq)|[(Hc & Hw & Hd & Heq)
       |(Hc & Hw & Hu & Hd & Heq)]]]]];
    rewrite Heq in Herr |- *; cbn [fst snd] in *; try done.
  - destruct (Z.eqb_spec (get_deviceState d) deviceStateClosed) as [|_]; [done|].
    destruct (Z.eqb_spec want (get_deviceState d)) as [|_]; [done|].
    by destruct (Z.eqb_spec want deviceStateUp).
  - destruct (Z.eqb_spec (get_deviceState d) deviceStateClosed) as [|_]; [done|].
    destruct (Z.eqb_spec want (get_deviceState d)) as [|_]; [done|].
    by subst want.
Qed.

(** X5: [changeState] never closes a device and never reopens one: the state
    word is Closed afterwards exactly when it was Closed before. *)
Theorem changeState_closed_iff want d :
  get_deviceState (changeState want d).2 = deviceStateClosed
  <-> get_deviceState d = deviceStateClosed.
Proof.
  rewrite changeState_state.
  destruct (Z.eqb_spec (get_deviceState d) deviceStateClosed) as [Hc|Hc]; [done|].
  destruct (Z.eqb_spec want (get_deviceState d)) as [Hw|Hw]; [by rewrite Hw|].
  destruct (Z.eqb_spec want deviceStateUp) as [Hu|Hu].
  { destruct ((changeState want d).1); split; try done; discriminate. }
  destruct (Z.eqb_spec want deviceStateDown) as [Hd|Hd]; [|done].
  split; [discriminate|done].
Qed.

(** X6: a repeated request does nothing.  On a device that is not closed, a
    second [Down] answers nil and changes nothing, even when the first one
    answered an error (the bind that failed to close is not closed again);
    and after an [Up] that answered nil, a second [Up] answers nil and
    changes nothing. *)
Theorem repeated_request_is_noop d :
  get_deviceState d ≠ deviceStateClosed ->
  Down (Down d).2 = (None, (Down d).2)
  /\ ((Up d).1 = None -> Up (Up d).2 = (None, (Up d).2)).
Proof.
  intros Hc. unfold Up, Down.
  assert (Hsame : forall want d', get_deviceState d' = want ->
                    want ≠ deviceStateClosed -> changeState want d' = (None, d')).
  { intros want d' Hst Hw. unfold changeState. rewrite Hst.
    destruct (Z.eqb_spec want deviceStateClosed) as [|_]; [done|].
    by rewrite Z.eqb_refl. }
  split.
  - apply Hsame; [|discriminate].
    rewrite changeState_state.
    destruct (Z.eqb_spec (get_deviceState d) deviceStateClosed) as [|_]; [done|].
    by destruct (deviceStateDown =? get_deviceState d).
  - intros Hok. apply Hsame; [|discriminate].
    rewrite changeState_state, Hok.
    destruct (Z.eqb_spec (get_deviceState d) deviceStateClosed) as [|_]; [done|].
    by destruct (deviceStateUp =? get_deviceState d).
Qed.

Lemma elem_of_concat_map {X Y} (f : X -> list Y) (l : list X) x y :
  x ∈ l -> y ∈ f x -> y ∈ concat (map f l).
Proof.
  intros Hx Hy. induction l as [|x' l IH]; [by apply elem_of_nil in Hx|].
  cbn [map concat]. apply elem_of_app.
  apply elem_of_cons in Hx as [->|Hx]; [by left|right; by apply IH].
Qed.

Lemma stop_events_elem d k p :
  peers_keyMap d !! k = Some p -> EvPeerStop (peer_id p) ∈ stop_events d.
Proof.
  intros Hp. unfold stop_events.
  apply (list_elem_of_fmap_2 (fun kp : NoisePublicKey * Peer => EvPeerStop (peer_id kp.2))
           _ (k, p)).
  by apply elem_of_map_to_list.
Qed.

Lemma start_events_elem d k p :
  peers_keyMap d !! k = Some p ->
  EvPeerStart (peer_id p) ∈ start_events d
  /\ (0 < persistentKeepaliveInterval p -> EvPeerSendKeepalive (peer_id p) ∈ start_events d).
Proof.
  intros Hp. apply elem_of_map_to_list in Hp. unfold start_events. split.
  - eapply elem_of_concat_map; [exact Hp|]. cbn [snd].
    destruct (persistentKeepaliveInterval p >? 0); by left.
  - intros Hpos. eapply elem_of_concat_map; [exact Hp|]. cbn [snd].
    destruct (Z.gtb_spec (persistentKeepaliveInterval p) 0); [|lia].
    right. by left.
Qed.

(** X7: [Down] on a device that is up (not closed, not down) answers what
    closing the bind answered, leaves the state word Down, and has closed
    the bind, logged the failure if there was one, and then stopped every
    peer of the registry -- whether or not the bind could be closed. *)
Theorem Down_closes_bind_then_stops_peers d :
  get_deviceState d ≠ deviceStateClosed ->
  get_deviceState d ≠ deviceStateDown ->
  (Down d).1 = (bind_Close (net_bind d)).2
  /\ get_deviceState (Down d).2 = deviceStateDown
  /\ trace (Down d).2
     = (trace d ++ closeBind_events d
        ++ match (bind_Close (net_bind d)).2 with
           | Some e => [LogErrorf "Bind close failed: %v" e]
           | None => []
           end
        ++ stop_events d
        ++ [LogVerbosef "Interface state was %s, requested %s, now %s"
              [get_deviceState d; deviceStateDown; deviceStateDown]])%list
  /\ forall k p,
      peers_keyMap d !! k = Some p -> EvPeerStop (peer_id p) ∈ stop_events d.
Proof.
  intros Hc Hd. unfold Down. rewrite (changeState_down d Hc Hd).
  rewrite downLocked_eq. cbn [fst snd].
  split; [done|]. split; [done|]. split; [|apply stop_events_elem].
  dev_norm. by rewrite <- !app_assoc.
Qed.

(** X8: [Up] that answers nil on a device that is down leaves the state word
    Up and has, in this order, closed the previous bind, cleared the cached
    source of every peer, announced and started one receiver per receive
    function of the newly opened bind, and then started every peer, sending
    a keepalive to each peer whose keepalive interval is positive. *)
Theorem Up_starts_receivers_then_peers d :
  get_deviceState d ≠ deviceStateClosed ->
  get_deviceState d ≠ deviceStateUp ->
  (Up d).1 = None ->
  let opened := bind_Open (bind_Close (net_bind d)).1 (net_port d) in
  get_deviceState (Up d).2 = deviceStateUp
  /\ net_port (Up d).2 = opened.2.1.2
  /\ trace (Up d).2
     = (trace d ++ closeBind_events d ++ clearing_events d
        ++ receiver_events opened.2.1.1 (bind_BatchSize (net_bind (Up d).2))
        ++ [LogVerbosef "UDP bind has been updated" []]
        ++ start_events d
        ++ [LogVerbosef "Interface state was %s, requested %s, now %s"
              [get_deviceState d; deviceStateUp; deviceStateUp]])%list
  /\ forall k p,
      peers_keyMap d !! k = Some p ->
      EvPeerStart (peer_id p) ∈ start_events d
      /\ (0 < persistentKeepaliveInterval p ->
          EvPeerSendKeepalive (peer_id p) ∈ start_events d).
Proof.
  intros Hc Hu Hok opened. unfold Up in *.
  destruct (changeState_cases deviceStateUp d)
    as [(Hc' & _)|[(_ & Hw & _)|[(_ & _ & _ & d1 & Hup & Heq)
       |[(_ & _ & _ & e & d1 & Hup & Heq)|[(_ & _ & Hd & _)|(_ & _ & Hu' & _)]]]]].
  1: done. 1: by symmetry in Hw. 2: by rewrite Heq in Hok. 2: discriminate Hd. 2: done.
  rewrite Heq. cbn [fst snd].
  rewrite upLocked_eq in Hup.
  set (d0 := set_state_state deviceStateUp d) in *.
  destruct ((BindUpdate d0).1) as [e|] eqn:Hbu; [done|].
  injection Hup as <-.
  destruct (BindUpdate_success_trace d0 eq_refl Hbu) as (Hport & _ & Htrace).
  destruct (BindUpdate_frame d0) as [Hs (Hkm & _)].
  split; [exact Hs|]. split; [exact Hport|]. split; [|apply start_events_elem].
  cbn [emit emits set_trace trace net_bind]. rewrite Htrace.
  unfold start_events at 1. rewrite Hkm.
  change (peers_keyMap d0) with (peers_keyMap d).
  fold (start_events d). by rewrite <- !app_assoc.
Qed.

Lemma closeBind_events_quiet d :
  Forall (fun e => isPeerStart e = false /\ isReceiverEvent e = false) (closeBind_events d).
Proof. unfold closeBind_events. destruct (net_netlinkCancel d); repeat constructor. Qed.

Lemma stop_events_quiet d :
  Forall (fun e => isPeerStart e = false /\ isReceiverEvent e = false) (stop_events d).
Proof. unfold stop_events. apply Forall_fmap, Forall_forall. by intros [k p] _. Qed.

(** X9: an [Up] that answers an error (on a device that was down) has started
    no peer, sent no keepalive, and neither announced nor started a
    receiver; and every peer of the registry has received [Stop]. *)
Theorem failed_Up_starts_nothing d :
  get_deviceState d ≠ deviceStateClosed ->
  get_deviceState d ≠ deviceStateUp ->
  (Up d).1 ≠ None ->
  exists es,
    trace (Up d).2 = (trace d ++ es)%list
    /\ Forall (fun e => isPeerStart e = false /\ isReceiverEvent e = false) es
    /\ forall k p, peers_keyMap d !! k = Some p -> EvPeerStop (peer_id p) ∈ es.
Proof.
  intros Hc Hu Herr. unfold Up in *.
  destruct (changeState_cases deviceStateUp d)
    as [(Hc' & _)|[(_ & Hw & _)|[(_ & _ & _ & d1 & Hup & Heq)
       |[(_ & _ & _ & e & d1 & Hup & Heq)|[(_ & _ & Hd & _)|(_ & _ & Hu' & _)]]]]].
  1: done. 1: by symmetry in Hw. 1: by rewrite Heq in Herr. 2: discriminate Hd. 2: done.
  rewrite Heq. cbn [fst snd]. clear Heq Herr.
  rewrite upLocked_eq in Hup.
  set (d0 := set_state_state deviceStateUp d) in *.
  destruct ((BindUpdate d0).1) as [e'|] eqn:Hbu; [|done].
  injection Hup as -> <-.
  assert (Hfail : (BindUpdate d0).1 ≠ None) by by rewrite Hbu.
  pose proof (BindUpdate_failure_trace d0 Hfail) as Htrace.
  destruct (BindUpdate_frame d0) as [_ (Hkm & _)].
  rewrite downLocked_eq. cbn [snd].
  set (d2 := set_state_state deviceStateDown
               (emit (LogErrorf "Unable to update bind: %v" e) (BindUpdate d0).2)).
  assert (Hkm2 : peers_keyMap d2 = peers_keyMap d) by exact Hkm.
  eexists. split; [|split].
  - cbn [emit emits set_trace trace set_net_bind]. subst d2.
    cbn [trace set_state_state emit set_trace]. rewrite Htrace.
    change (trace d0) with (trace d). rewrite <- !app_assoc. reflexivity.
  - repeat apply Forall_app_2; try apply closeBind_events_quiet;
      try apply stop_events_quiet; try (by repeat constructor).
    all: match goal with
         | |- Forall _ (match ?x with _ => _ end) => destruct x; by repeat constructor
         end.
  - intros k p Hp.
    assert (Hstop : EvPeerStop (peer_id p) ∈ stop_events d2).
    { apply (stop_events_elem d2 k p). by rewrite Hkm2. }
    rewrite !elem_of_app. tauto.
Qed.

(** [BindSetMark], outcome by outcome. *)
Lemma BindSetMark_eq mark d :
  BindSetMark mark d
  = if net_fwmark d =? mark then (None, d)
    else if isUp d then
           match (bind_SetMark (net_bind d) mark).2 with
           | Some e =>
               (Some e,
                set_net_bind (bind_SetMark (net_bind d) mark).1 (set_net_fwmark mark d))
           | None =>
               (None,
                emits (clearing_events d)
                      (set_net_bind (bind_SetMark (net_bind d) mark).1
                                    (set_net_fwmark mark d)))
           end
         else (None, emits (clearing_events d) (set_net_fwmark mark d)).
Proof.
  unfold BindSetMark.
  destruct (net_fwmark d =? mark); [done|].
  change (isUp (set_net_fwmark mark d)) with (isUp d).
  assert (Hclear : forall dev : Device B,
    range_keyMap
      (fun d0 _ peer => emit (EvPeerMarkEndpointSrcForClearing (peer_id peer)) d0) dev
    = emits (clearing_events dev) dev).
  { intros dev.
    rewrite (range_keyMap_emits _
               (fun kp => [EvPeerMarkEndpointSrcForClearing (peer_id kp.2)])) by done.
    by rewrite concat_map_singleton. }
  destruct (isUp d).
  - change (net_bind (set_net_fwmark mark d)) with (net_bind d).
    destruct (bind_SetMark (net_bind d) mark) as [b [e|]]; cbn [fst snd]; [done|].
    by rewrite Hclear.
  - by rewrite Hclear.
Qed.

(** X10: after [BindSetMark mark] the device's firewall mark is [mark],
    whatever was answered: the mark is stored before the bind is asked, so it
    stays installed when [SetMark] fails; and a second [BindSetMark] with the
    same mark answers nil and does nothing, so a failed [SetMark] is not
    tried again. *)
Theorem BindSetMark_installs_mark mark d :
  net_fwmark (BindSetMark mark d).2 = mark
  /\ BindSetMark mark (BindSetMark mark d).2 = (None, (BindSetMark mark d).2).
Proof.
  assert (Hmark : net_fwmark (BindSetMark mark d).2 = mark).
  { rewrite BindSetMark_eq.
    destruct (Z.eqb_spec (net_fwmark d) mark) as [Heq|_]; [exact Heq|].
    destruct (isUp d); [|reflexivity].
    destruct ((bind_SetMark (net_bind d) mark).2); reflexivity. }
  split; [exact Hmark|].
  rewrite (BindSetMark_eq mark (BindSetMark mark d).2), Hmark.
  by rewrite Z.eqb_refl.
Qed.

(** X11: [BindSetMark] with a new mark.  On a device that is not up it answers
    nil without calling the bind, and clears the cached source of every
    peer.  On a device that is up it answers what the bind's [SetMark]
    answered; the cached sources are cleared only when that is nil. *)
Theorem BindSetMark_new_mark mark d :
  net_fwmark d ≠ mark ->
  (isUp d = false ->
     (BindSetMark mark d).1 = None
     /\ net_bind (BindSetMark mark d).2 = net_bind d
     /\ trace (BindSetMark mark d).2 = (trace d ++ clearing_events d)%list)
  /\ (isUp d = true ->
      (BindSetMark mark d).1 = (bind_SetMark (net_bind d) mark).2
      /\ net_bind (BindSetMark mark d).2 = (bind_SetMark (net_bind d) mark).1
      /\ trace (BindSetMark mark d).2
         = (trace d
            ++ match (bind_SetMark (net_bind d) mark).2 with
               | Some _ => []
               | None => clearing_events d
               end)%list).
Proof.
  intros Hne. rewrite BindSetMark_eq.
  destruct (Z.eqb_spec (net_fwmark d) mark) as [|_]; [done|].
  split; intros Hup; rewrite Hup; [done|].
  destruct ((bind_SetMark (net_bind d) mark).2); cbn [fst snd]; dev_norm;
    by rewrite ?app_nil_r.
Qed.

End Lifecycle.

Section Closing.
Context {B : Type} `{!Bind B}.
Implicit Types (device d : Device B).

Lemma removeSelected_state sel l d :
  state_state (removeSelected sel d l) = state_state d.
Proof.
  revert d. induction l as [|kp l IH]; intros d; [done|].
  rewrite removeSelected_cons, IH. by destruct (sel kp).
Qed.

Lemma RemoveAllPeers_eq d :
  RemoveAllPeers d
  = set_peers_keyMap ∅ (removeSelected (fun _ => true) d (map_to_list (peers_keyMap d))).
Proof. reflexivity. Qed.

Lemma RemoveAllPeers_trace d :
  trace (RemoveAllPeers d) = (trace d ++ removeAll_events d)%list.
Proof.
  rewrite RemoveAllPeers_eq. cbn [trace set_peers_keyMap].
  by rewrite removeSelected_trace.
Qed.

(** [Close] on a device that is not closed, written out. *)
Lemma Close_eq d :
  get_deviceState d ≠ deviceStateClosed ->
  Close d
  = set_closed true
      (emits closing_events
         (RemoveAllPeers
            (downLocked
               (emit EvTunClose
                  (emit (LogVerbosef "Device closing" [])
                     (set_state_state deviceStateClosed d)))).2)).
Proof.
  intros Hc. unfold Close, isClosed.
  destruct (Z.eqb_spec (get_deviceState d) deviceStateClosed) as [|_]; [done|].
  destruct (downLocked _) as [err d2]. cbn [snd]. unfold closing_events. dev_eq.
Qed.

(** X12: [Close] is final.  After [Close] the state word is Closed, whatever
    it was; a second [Close] changes nothing; and when the device was not
    closed already, the closed latch that [Wait] hands out is set and the
    registry is empty, so that [LookupPeer] finds no peer. *)
Theorem Close_is_final d :
  get_deviceState (Close d) = deviceStateClosed
  /\ Close (Close d) = Close d
  /\ (get_deviceState d ≠ deviceStateClosed ->
      Wait (Close d) = true
      /\ forall pk, LookupPeer pk (Close d) = None).
Proof.
  assert (Hstate : get_deviceState (Close d) = deviceStateClosed).
  { destruct (Z.eq_dec (get_deviceState d) deviceStateClosed) as [Hc|Hc].
    - unfold Close, isClosed. by rewrite Hc.
    - rewrite (Close_eq d Hc). unfold get_deviceState.
      cbn [state_state set_closed emits set_trace].
      rewrite RemoveAllPeers_eq. cbn [state_state set_peers_keyMap].
      rewrite removeSelected_state. by rewrite downLocked_state. }
  split; [exact Hstate|]. split.
  - unfold Close at 1. unfold isClosed. by rewrite Hstate.
  - intros Hc. rewrite (Close_eq d Hc). split; [reflexivity|].
    intros pk. unfold LookupPeer. cbn [peers_keyMap set_closed emits set_trace].
    rewrite RemoveAllPeers_eq. cbn [peers_keyMap set_peers_keyMap].
    apply lookup_empty.
Qed.

(** X13: the order of [Close] on a device that is not closed: the TUN device
    is closed first; then the down-procedure closes the bind and stops every
    peer; then every peer is removed (routes, [Stop], key); and only after
    that are the three queues released, the workers awaited, the rate
    limiter closed and the latch fired. *)
Theorem Close_order d :
  get_deviceState d ≠ deviceStateClosed ->
  trace (Close d)
  = (trace d
     ++ [LogVerbosef "Device closing" []; EvTunClose]
     ++ closeBind_events d
     ++ match (bind_Close (net_bind d)).2 with
        | Some e => [LogErrorf "Bind close failed: %v" e]
        | None => []
        end
     ++ stop_events d
     ++ removeAll_events d
     ++ closing_events)%list.
Proof.
  intros Hc. rewrite (Close_eq d Hc).
  cbn [trace set_closed emits set_trace]. rewrite RemoveAllPeers_trace.
  rewrite downLocked_eq. cbn [snd].
  unfold removeAll_events at 1. cbn [peers_keyMap emits set_trace set_net_bind].
  fold (removeAll_events d).
  cbn [trace emits emit set_trace set_net_bind set_state_state].
  by rewrite <- !app_assoc.
Qed.

End Closing.

Section RegistryLookups.
Context {B : Type}.
Implicit Types (device d : Device B).

Lemma removeSelected_net_bind sel l d :
  net_bind (removeSelected sel d l) = net_bind d.
Proof.
  revert d. induction l as [|kp l IH]; intros d; [done|].
  rewrite removeSelected_cons, IH. by destruct (sel kp).
Qed.

(** X14: [RemovePeer] and [LookupPeer].  After [RemovePeer key] the key leads
    to no peer; every other key leads to what it led to; and removing a key
    that is not registered changes nothing at all (no route is touched, no
    peer is stopped). *)
Theorem RemovePeer_lookup key d :
  LookupPeer key (RemovePeer key d) = None
  /\ (forall k, k ≠ key -> LookupPeer k (RemovePeer key d) = LookupPeer k d)
  /\ (LookupPeer key d = None -> RemovePeer key d = d).
Proof.
  unfold LookupPeer, RemovePeer.
  destruct (peers_keyMap d !! key) as [peer|] eqn:Hk.
  - split; [|split; [|done]].
    + cbn [removePeerLocked peers_keyMap emit set_trace set_peers_keyMap].
      apply lookup_delete_eq.
    + intros k Hne.
      cbn [removePeerLocked peers_keyMap emit set_trace set_peers_keyMap].
      by apply lookup_delete_ne.
  - done.
Qed.

End RegistryLookups.

Section IdentityAgain.
Context {B : Type} `{!Crypto}.
Implicit Types (device d : Device B).

(** X15: [SetPrivateKey] settles.  Whatever the key, the device has it
    installed afterwards and a second [SetPrivateKey] with it answers nil and
    changes nothing.  With a key other than the installed one, the cookie
    checker is initialised with the new public key, the state word and the
    bind are not touched, and no key is added to the registry. *)
Theorem SetPrivateKey_settles sk d :
  staticIdentity_privateKey (SetPrivateKey sk d).2 = sk
  /\ SetPrivateKey sk (SetPrivateKey sk d).2 = (None, (SetPrivateKey sk d).2)
  /\ (sk ≠ staticIdentity_privateKey d ->
      cookieChecker (SetPrivateKey sk d).2 = Some (publicKey sk)
      /\ state_state (SetPrivateKey sk d).2 = state_state d
      /\ net_bind (SetPrivateKey sk d).2 = net_bind d
      /\ forall k, peers_keyMap d !! k = None ->
                   peers_keyMap (SetPrivateKey sk d).2 !! k = None).
Proof.
  assert (Hkey : staticIdentity_privateKey (SetPrivateKey sk d).2 = sk).
  { destruct (Z.eq_dec sk (staticIdentity_privateKey d)) as [Heq|Hne].
    - unfold SetPrivateKey, NoisePrivateKey_Equals.
      rewrite <- Heq at 1. by rewrite Z.eqb_refl.
    - by rewrite (SetPrivateKey_new_key sk d Hne). }
  split; [exact Hkey|]. split.
  - unfold SetPrivateKey at 1. unfold NoisePrivateKey_Equals.
    by rewrite Hkey, Z.eqb_refl.
  - intros Hne. rewrite (SetPrivateKey_new_key sk d Hne).
    cbn [snd cookieChecker state_state net_bind peers_keyMap emits set_trace
         set_peers_keyMap set_cookieChecker set_staticIdentity_publicKey
         set_staticIdentity_privateKey].
    split; [done|]. split; [apply removeSelected_state|]. split.
    + apply removeSelected_net_bind.
    + intros k Hk. rewrite lookup_fmap.
      destruct (peers_keyMap (removeSelected _ d (map_to_list (peers_keyMap d))) !! k)
        as [p|] eqn:Hp; [|done].
      apply removeSelected_lookup in Hp as [Hp _]. congruence.
Qed.

End IdentityAgain.

Section LoadWindow.
Context {B : Type} `{!Constants}.
Implicit Types (device d : Device B).

(** X16: the hysteresis of the load detector across calls.  Once
    [IsUnderLoad] has seen a queue of depth 128 or more at the instant [t0],
    a later call at [t1], on a device with that stored deadline and whatever
    queue, answers true while [t1 < t0 + UnderLoadAfterTime]; from that
    instant on it answers false as soon as the queue depth is below 128.
    (The instants fit an [int64].) *)
Theorem IsUnderLoad_window (t0 t1 : Z) d d1 :
  128 <= Z.of_nat (length (queue_handshake_c d)) ->
  rate_underLoadUntil d1 = rate_underLoadUntil (IsUnderLoad t0 d).2 ->
  - 2 ^ 63 <= t0 + UnderLoadAfterTime < 2 ^ 63 ->
  - 2 ^ 63 <= t1 < 2 ^ 63 ->
  (t1 < t0 + UnderLoadAfterTime -> (IsUnderLoad t1 d1).1 = true)
  /\ (t0 + UnderLoadAfterTime <= t1 ->
      Z.of_nat (length (queue_handshake_c d1)) < 128 ->
      (IsUnderLoad t1 d1).1 = false).
Proof.
  intros Hdepth Hstored Hfit0 Hfit1.
  assert (Huntil : rate_underLoadUntil d1 = t0 + UnderLoadAfterTime).
  { rewrite Hstored. unfold IsUnderLoad.
    change (QueueHandshakeSize ÷ 8) with 128.
    destruct (Z.geb_spec (Z.of_nat (length (queue_handshake_c d))) 128) as [_|]; [|lia].
    cbn [snd rate_underLoadUntil set_rate_underLoadUntil].
    unfold UnixNano. by apply wrap_int_id. }
  unfold IsUnderLoad. change (QueueHandshakeSize ÷ 8) with 128.
  unfold UnixNano. rewrite (wrap_int_id t1 Hfit1), Huntil.
  split.
  - intros Hin.
    destruct (Z.of_nat (length (queue_handshake_c d1)) >=? 128); [done|].
    cbn [fst]. apply Z.gtb_lt. lia.
  - intros Hout Hlow.
    destruct (Z.geb_spec (Z.of_nat (length (queue_handshake_c d1))) 128) as [|_]; [lia|].
    cbn [fst]. destruct (Z.gtb_spec (t0 + UnderLoadAfterTime) t1); [lia|done].
Qed.

End LoadWindow.

Section PostConfigMore.
Context {B : Type} `{!Constants}.
Implicit Types (device d : Device B) (g : Globals) (t : aSecConfType).

Ltac split_cond :=
  match goal with
  | |- context [if ?b then _ else _] =>
      let E := fresh "E" in destruct b eqn:E
  end.

Ltac cond_to_Z :=
  repeat match goal with
    | H : (_ && _) = true |- _ => apply andb_true_iff in H; destruct H
    | H : (_ && _) = false |- _ => apply andb_false_iff in H
    | H : negb _ = true |- _ => apply negb_true_iff in H
    | H : negb _ = false |- _ => apply negb_false_iff in H
    | H : (_ <? _) = true |- _ => apply Z.ltb_lt in H
    | H : (_ <? _) = false |- _ => apply Z.ltb_ge in H
    | H : (_ >? _) = true |- _ => rewrite Z.gtb_ltb in H
    | H : (_ >? _) = false |- _ => rewrite Z.gtb_ltb in H
    | H : (_ >=? _) = true |- _ => rewrite Z.geb_leb in H; apply Z.leb_le in H
    | H : (_ >=? _) = false |- _ => rewrite Z.geb_leb in H; apply Z.leb_gt in H
    | H : (_ =? _) = true |- _ => apply Z.eqb_eq in H
    | H : (_ =? _) = false |- _ => apply Z.eqb_neq in H
    end.

Lemma if_true_orb (a b : bool) : (if a then true else b) = a || b.
Proof. by destruct a. Qed.

(** The junk stretch: the flag it computes, the errors it chains, and what
    it installs. *)
Lemma postConfig_junk_installs t d :
  let r := postConfig_junk t d in
  let adj := adjustedJunkPacketMaxSize t in
  r.1.1.2
  = negb (responsePacketJunkSize t =? 0)
    || (negb (initPacketJunkSize t =? 0)
        || (negb (adj =? 0)
            || (negb (junkPacketMinSize t =? 0) || negb (junkPacketCount t =? 0))))
  /\ chainLength r.1.1.1 = failedJunkChecks t
  /\ junkPacketCount (aSecConf r.2) = junkPacketCount t
  /\ (junkPacketMinSize (aSecConf r.2), junkPacketMaxSize (aSecConf r.2))
     = (if adj >=? MaxSegmentSize then (0, 1)
        else if adj <? junkPacketMinSize t
             then (junkPacketMinSize t, junkPacketMaxSize (aSecConf d))
             else (junkPacketMinSize t, adj))
  /\ r.1.2 = set_junkPacketMaxSize adj t
  /\ trace r.2 = trace d.
Proof.
  unfold postConfig_junk, failedJunkChecks, adjustedJunkPacketMaxSize, fired.
  cbn [aSecConf upd_aSecConf set_aSecConf junkPacketCount set_junkPacketCount
       set_junkPacketMinSize].
  rewrite !if_true_orb, !orb_false_r.
  destruct (junkPacketCount t <? 0) eqn:E1;
    destruct ((junkPacketCount t >? 0) && (junkPacketMaxSize t =? junkPacketMinSize t))
      eqn:E2;
    cbn [junkPacketMaxSize junkPacketMinSize initPacketJunkSize responsePacketJunkSize
         set_junkPacketMaxSize];
    repeat match goal with
      | |- context [?x >=? MaxSegmentSize] => destruct (x >=? MaxSegmentSize) eqn:?
      end;
    cbn [orb];
    repeat match goal with
      | |- context [?x <? junkPacketMinSize t] =>
          destruct (x <? junkPacketMinSize t) eqn:?
      end;
    cbn -[MaxSegmentSize int_add];
    (repeat split; first [reflexivity | by destruct t]).
Qed.

(** The magic-header stretch: the flag, and what it installs. *)
Lemma postConfig_magic_installs t on d g :
  let r := postConfig_magic t on d g in
  r.1.1
  = (transportPacketMagicHeader t >? 4)
    || ((underloadPacketMagicHeader t >? 4)
        || ((responsePacketMagicHeader t >? 4)
            || ((initPacketMagicHeader t >? 4) || on)))
  /\ junkPacketCount (aSecConf r.1.2) = junkPacketCount (aSecConf d)
  /\ junkPacketMinSize (aSecConf r.1.2) = junkPacketMinSize (aSecConf d)
  /\ junkPacketMaxSize (aSecConf r.1.2) = junkPacketMaxSize (aSecConf d)
  /\ initPacketMagicHeader (aSecConf r.1.2)
     = (if initPacketMagicHeader t >? 4 then initPacketMagicHeader t
        else initPacketMagicHeader (aSecConf d))
  /\ responsePacketMagicHeader (aSecConf r.1.2)
     = (if responsePacketMagicHeader t >? 4 then responsePacketMagicHeader t
        else responsePacketMagicHeader (aSecConf d))
  /\ underloadPacketMagicHeader (aSecConf r.1.2)
     = (if underloadPacketMagicHeader t >? 4 then underloadPacketMagicHeader t
        else underloadPacketMagicHeader (aSecConf d))
  /\ transportPacketMagicHeader (aSecConf r.1.2)
     = (if transportPacketMagicHeader t >? 4 then transportPacketMagicHeader t
        else transportPacketMagicHeader (aSecConf d)).
Proof.
  unfold postConfig_magic.
  destruct (initPacketMagicHeader t >? 4);
    destruct (responsePacketMagicHeader t >? 4);
    destruct (underloadPacketMagicHeader t >? 4);
    destruct (transportPacketMagicHeader t >? 4);
    cbn; done.
Qed.

Lemma chainLength_fault err fmt args :
  chainLength (fault err fmt args) = S (chainLength err).
Proof. by destruct err. Qed.

Lemma postConfig_distinct_chain err g :
  chainLength (postConfig_distinct err g)
  = (chainLength err + fired (negb (bool_decide (NoDup (messageTypes g)))))%nat.
Proof.
  unfold postConfig_distinct. pose proof (isSameMap_size g) as Hsize.
  destruct (Nat.eqb_spec (size (postConfig_isSameMap g)) 4) as [Heq|Hne]; cbn [negb].
  - rewrite bool_decide_eq_true_2 by by apply Hsize. cbn. lia.
  - rewrite bool_decide_eq_false_2 by (intros Hnd; by apply Hne, Hsize).
    rewrite chainLength_fault. cbn. lia.
Qed.

(** The last stretch: the error it chains and the tables it builds. *)
Lemma postConfig_tables_installs err d g :
  let newInitSize := int_add MessageInitiationSize (initPacketJunkSize (aSecConf d)) in
  let newResponseSize :=
    int_add MessageResponseSize (responsePacketJunkSize (aSecConf d)) in
  let r := postConfig_tables err d g in
  chainLength r.1 = Nat.add (chainLength err) (fired (newInitSize =? newResponseSize))
  /\ (newInitSize ≠ newResponseSize ->
      r.1 = err
      /\ packetSizeToMsgType r.2
         = <[MessageTransportSize := MessageTransportType g]>
             (<[MessageCookieReplySize := MessageCookieReplyType g]>
                (<[newResponseSize := MessageResponseType g]>
                   (<[newInitSize := MessageInitiationType g]> ∅)))
      /\ msgTypeToJunkSize r.2
         = <[MessageTransportType g := 0]>
             (<[MessageCookieReplyType g := 0]>
                (<[MessageResponseType g := responsePacketJunkSize (aSecConf d)]>
                   (<[MessageInitiationType g := initPacketJunkSize (aSecConf d)]> ∅)))).
Proof.
  intros newInitSize newResponseSize. unfold postConfig_tables.
  fold newInitSize newResponseSize.
  destruct (Z.eqb_spec newInitSize newResponseSize) as [Heq|Hne]; cbn [fst snd fired].
  - split; [rewrite chainLength_fault; lia|done].
  - split; [lia|done].
Qed.

Lemma postConfig_tables_types err d g :
  let r := postConfig_tables err d g in
  MessageInitiationType r.2 = MessageInitiationType g
  /\ MessageResponseType r.2 = MessageResponseType g
  /\ MessageCookieReplyType r.2 = MessageCookieReplyType g
  /\ MessageTransportType r.2 = MessageTransportType g.
Proof.
  unfold postConfig_tables.
  by destruct (int_add MessageInitiationSize (initPacketJunkSize (aSecConf d))
               =? int_add MessageResponseSize (responsePacketJunkSize (aSecConf d))).
Qed.

Lemma postConfig_magic_types t on d g :
  let r := postConfig_magic t on d g in
  MessageInitiationType r.2 = resolveMagicHeader (initPacketMagicHeader t) 1
  /\ MessageResponseType r.2 = resolveMagicHeader (responsePacketMagicHeader t) 2
  /\ MessageCookieReplyType r.2 = resolveMagicHeader (underloadPacketMagicHeader t) 3
  /\ MessageTransportType r.2 = resolveMagicHeader (transportPacketMagicHeader t) 4.
Proof.
  unfold postConfig_magic, resolveMagicHeader.
  destruct (initPacketMagicHeader t >? 4);
    destruct (responsePacketMagicHeader t >? 4);
    destruct (underloadPacketMagicHeader t >? 4);
    destruct (transportPacketMagicHeader t >? 4);
    cbn; done.
Qed.

(** [handlePostConfig] on a configuration that is set, as the composition
    of its four stretches. *)
Lemma handlePostConfig_set_eq t d g :
  isSet t = true ->
  let j := postConfig_junk t d in
  let m := postConfig_magic j.1.2 j.1.1.2 j.2 g in
  let tb := postConfig_tables (postConfig_distinct j.1.1.1 m.2) m.1.2 m.2 in
  handlePostConfig t d g = (tb.1, j.1.2, set_isASecOn m.1.1 m.1.2, tb.2).
Proof.
  intros Hset. unfold handlePostConfig. rewrite Hset. cbn [negb].
  destruct (postConfig_junk t d) as [[[err1 on1] t1] d1]. cbn [fst snd].
  destruct (postConfig_magic t1 on1 d1 g) as [[on2 d2] g2]. cbn [fst snd].
  by destruct (postConfig_tables (postConfig_distinct err1 g2) d2 g2).
Qed.

(** X17: the "advanced security" flag after [handlePostConfig] on a
    configuration that is set says whether the supplied configuration has a
    non-default parameter -- a junk count or size other than 0, or a magic
    header above 4 -- and this whether or not the configuration was
    accepted. *)
Theorem handlePostConfig_flag t d g :
  isSet t = true ->
  isAdvancedSecurityOn (handlePostConfig t d g).1.2 = nonDefault t.
Proof.
  intros Hset. rewrite (handlePostConfig_set_eq t d g Hset). cbn [fst snd].
  unfold isAdvancedSecurityOn. cbn [isASecOn set_isASecOn].
  destruct (postConfig_junk_installs t d) as (Hflag & _ & _ & _ & Htemp & _).
  destruct (postConfig_magic_installs (postConfig_junk t d).1.2
              (postConfig_junk t d).1.1.2 (postConfig_junk t d).2 g) as (Hon & _).
  rewrite Hon, Hflag, Htemp. cbn [initPacketMagicHeader responsePacketMagicHeader
    underloadPacketMagicHeader transportPacketMagicHeader set_junkPacketMaxSize].
  unfold nonDefault, adjustedJunkPacketMaxSize.
  destruct (Z.gtb_spec (junkPacketCount t) 0) as [Hpos|Hnon]; cbn [andb].
  - assert (Hcount : negb (junkPacketCount t =? 0) = true).
    { apply negb_true_iff, Z.eqb_neq. lia. }
    rewrite Hcount.
    destruct (negb (responsePacketJunkSize t =? 0)),
      (negb (initPacketJunkSize t =? 0)), (negb (junkPacketMinSize t =? 0)),
      (transportPacketMagicHeader t >? 4), (underloadPacketMagicHeader t >? 4),
      (responsePacketMagicHeader t >? 4), (initPacketMagicHeader t >? 4);
      cbn; by rewrite ?orb_true_r.
  - destruct (negb (junkPacketCount t =? 0)), (negb (junkPacketMaxSize t =? 0)),
      (negb (responsePacketJunkSize t =? 0)),
      (negb (initPacketJunkSize t =? 0)), (negb (junkPacketMinSize t =? 0)),
      (transportPacketMagicHeader t >? 4), (underloadPacketMagicHeader t >? 4),
      (responsePacketMagicHeader t >? 4), (initPacketMagicHeader t >? 4);
      reflexivity.
Qed.

(** X18: the errors of [handlePostConfig] accumulate: on a configuration that
    is set, the error answered wraps one error per failed check, so the
    length of its chain is the number of checks that fail -- the count, the
    bounds of the junk size, the init size, the response size, the
    distinctness of the four resolved headers, and the equality of the two
    new sizes (computed from the junk sizes the device then holds). *)
Theorem handlePostConfig_errors_accumulate t d g :
  isSet t = true ->
  chainLength (handlePostConfig t d g).1.1.1
  = failedChecks t
      (initPacketJunkSize (aSecConf (handlePostConfig t d g).1.2))
      (responsePacketJunkSize (aSecConf (handlePostConfig t d g).1.2)).
Proof.
  intros Hset. rewrite (handlePostConfig_set_eq t d g Hset). cbn [fst snd].
  cbn [aSecConf set_isASecOn].
  destruct (postConfig_junk_installs t d) as (_ & Hchain & _ & _ & Htemp & _).
  pose proof (postConfig_magic_spec (postConfig_junk t d).1.2
                (postConfig_junk t d).1.1.2 (postConfig_junk t d).2 g) as Hm.
  cbv zeta in Hm. destruct Hm as (Htypes & _).
  set (m := postConfig_magic (postConfig_junk t d).1.2
              (postConfig_junk t d).1.1.2 (postConfig_junk t d).2 g) in *.
  destruct (postConfig_tables_installs
              (postConfig_distinct (postConfig_junk t d).1.1.1 m.2) m.1.2 m.2)
    as (Htab & _).
  rewrite Htab, postConfig_distinct_chain, Hchain, Htypes, Htemp.
  unfold failedChecks, failedJunkChecks.
  by rewrite (resolvedMagicHeaders_ext t (set_junkPacketMaxSize _ t)).
Qed.

(** X19: what [handlePostConfig] installs of the junk bounds, on a
    configuration that is set.  A maximum (after the adjustment of rule 2) at
    or above [MaxSegmentSize] resets the installed bounds to 0 and 1; a
    maximum below the minimum installs the new minimum and leaves the
    previous maximum in place; otherwise both are installed. *)
Theorem handlePostConfig_junk_bounds t d g :
  isSet t = true ->
  let adj := adjustedJunkPacketMaxSize t in
  let conf := aSecConf (handlePostConfig t d g).1.2 in
  (MaxSegmentSize <= adj -> junkPacketMinSize conf = 0 /\ junkPacketMaxSize conf = 1)
  /\ (adj < MaxSegmentSize -> adj < junkPacketMinSize t ->
      junkPacketMinSize conf = junkPacketMinSize t
      /\ junkPacketMaxSize conf = junkPacketMaxSize (aSecConf d))
  /\ (adj < MaxSegmentSize -> junkPacketMinSize t <= adj ->
      junkPacketMinSize conf = junkPacketMinSize t /\ junkPacketMaxSize conf = adj).
Proof.
  intros Hset adj conf. subst conf.
  rewrite (handlePostConfig_set_eq t d g Hset). cbn [fst snd aSecConf set_isASecOn].
  destruct (postConfig_junk_installs t d) as (_ & _ & _ & Hbounds & _).
  destruct (postConfig_magic_installs (postConfig_junk t d).1.2
              (postConfig_junk t d).1.1.2 (postConfig_junk t d).2 g)
    as (_ & _ & Hmin & Hmax & _).
  rewrite Hmin, Hmax. fold adj in Hbounds.
  destruct (Z.geb_spec adj MaxSegmentSize) as [Hge|Hlt].
  - injection Hbounds as Hbmin Hbmax.
    (split; [|split]); intros; first [lia | by rewrite Hbmin, Hbmax].
  - destruct (Z.ltb_spec adj (junkPacketMinSize t)) as [Hlow|Hok];
      injection Hbounds as Hbmin Hbmax;
      (split; [|split]); intros; first [lia | by rewrite Hbmin, Hbmax].
Qed.

Lemma postConfig_accepts_stretches t d g :
  ~ violatesRule t ->
  let j := postConfig_junk t d in
  let m := postConfig_magic j.1.2 j.1.1.2 j.2 g in
  let tb := postConfig_tables (postConfig_distinct j.1.1.1 m.2) m.1.2 m.2 in
  let conf := aSecConf m.1.2 in
  tb.1 = None
  /\ junkPacketCount conf = junkPacketCount t
  /\ junkPacketMinSize conf = junkPacketMinSize t
  /\ junkPacketMaxSize conf = adjustedJunkPacketMaxSize t
  /\ initPacketJunkSize conf = initPacketJunkSize t
  /\ responsePacketJunkSize conf = responsePacketJunkSize t
  /\ msgTypeToJunkSize tb.2 !! MessageInitiationType tb.2 = Some (initPacketJunkSize t)
  /\ msgTypeToJunkSize tb.2 !! MessageResponseType tb.2 = Some (responsePacketJunkSize t)
  /\ msgTypeToJunkSize tb.2 !! MessageCookieReplyType tb.2 = Some 0
  /\ msgTypeToJunkSize tb.2 !! MessageTransportType tb.2 = Some 0
  /\ packetSizeToMsgType tb.2 !! MessageTransportSize = Some (MessageTransportType tb.2).
Proof.
  intros Hok j m tb conf.
  unfold violatesRule in Hok.
  assert (Hadj1 : (adjustedJunkPacketMaxSize t >=? MaxSegmentSize) = false).
  { destruct (Z.geb_spec (adjustedJunkPacketMaxSize t) MaxSegmentSize); [lia|done]. }
  assert (Hadj2 : (adjustedJunkPacketMaxSize t <? junkPacketMinSize t) = false).
  { destruct (Z.ltb_spec (adjustedJunkPacketMaxSize t) (junkPacketMinSize t));
      [lia|done]. }
  assert (Hi : int_add MessageInitiationSize (initPacketJunkSize t) < MaxSegmentSize)
    by lia.
  assert (Hr : int_add MessageResponseSize (responsePacketJunkSize t) < MaxSegmentSize)
    by lia.
  assert (Hne : int_add MessageInitiationSize (initPacketJunkSize t)
                ≠ int_add MessageResponseSize (responsePacketJunkSize t)) by tauto.
  assert (Hnd : NoDup (resolvedMagicHeaders t)).
  { destruct (decide (NoDup (resolvedMagicHeaders t))); [done|tauto]. }
  destruct (postConfig_junk_installs t d) as (_ & _ & Hcount & Hbounds & _).
  rewrite Hadj1, Hadj2 in Hbounds.
  destruct (postConfig_junk_spec t d)
    as (_ & Herr1 & Hji & Hjr & Hm1 & Hm2 & Hm3 & Hm4).
  specialize (Hji Hi). specialize (Hjr Hr).
  assert (Hnil1 : (postConfig_junk t d).1.1.1 = None).
  { destruct ((postConfig_junk t d).1.1.1) as [e|]; [|done].
    exfalso. assert (Hsome : Some e ≠ None) by done.
    apply Herr1 in Hsome. tauto. }
  clear Hok Herr1.
  fold j in Hcount, Hbounds, Hji, Hjr, Hm1, Hm2, Hm3, Hm4, Hnil1.
  assert (Hnil2 : postConfig_distinct j.1.1.1 (postConfig_magic j.1.2 j.1.1.2 j.2 g).2
                  = None).
  { rewrite Hnil1. unfold postConfig_distinct.
    assert (Hsize : size (postConfig_isSameMap (postConfig_magic j.1.2 j.1.1.2 j.2 g).2)
                    = 4%nat).
    { apply isSameMap_size.
      destruct (postConfig_magic_spec j.1.2 j.1.1.2 j.2 g) as (Htypes & _).
      rewrite Htypes. by rewrite (resolvedMagicHeaders_ext t j.1.2). }
    by rewrite Hsize. }
  apply NoDup_four in Hnd as (Hab & Hac & Hae & Hbc & Hbe & Hce).
  destruct (postConfig_magic_spec j.1.2 j.1.1.2 j.2 g) as (_ & _ & _ & Hmi & Hmr).
  destruct (postConfig_magic_installs j.1.2 j.1.1.2 j.2 g) as (_ & Hmc & Hmn & Hmx & _).
  destruct (postConfig_magic_types j.1.2 j.1.1.2 j.2 g) as (Hr1 & Hr2 & Hr3 & Hr4).
  fold m in Hmi, Hmr, Hmc, Hmn, Hmx, Hr1, Hr2, Hr3, Hr4.
  rewrite Hm1 in Hr1. rewrite Hm2 in Hr2. rewrite Hm3 in Hr3. rewrite Hm4 in Hr4.
  rewrite Hji in Hmi. rewrite Hjr in Hmr.
  destruct (postConfig_tables_installs (postConfig_distinct j.1.1.1 m.2) m.1.2 m.2)
    as (_ & Htab).
  rewrite Hmi, Hmr in Htab. destruct (Htab Hne) as (Hnil3 & Hps & Hmj). clear Htab.
  destruct (postConfig_tables_types (postConfig_distinct j.1.1.1 m.2) m.1.2 m.2)
    as (Ht1 & Ht2 & Ht3 & Ht4).
  fold m in Hnil2. rewrite Hnil2 in Hnil3 at 2.
  fold tb in Hps, Hmj, Ht1, Ht2, Ht3, Ht4, Hnil3.
  clearbody tb m j. subst conf. split; [exact Hnil3|].
  assert (Hmin : junkPacketMinSize (aSecConf j.2) = junkPacketMinSize t) by congruence.
  assert (Hmax : junkPacketMaxSize (aSecConf j.2) = adjustedJunkPacketMaxSize t)
    by congruence.
  split; [congruence|]. split; [congruence|]. split; [congruence|].
  split; [done|]. split; [done|].
  rewrite Hmj, Hps, Ht1, Ht2, Ht3, Ht4, Hr1, Hr2, Hr3, Hr4.
  unfold resolvedMagicHeaders in *.
  repeat split.
  - rewrite !lookup_insert_ne by done. apply lookup_insert_eq.
  - rewrite !lookup_insert_ne by done. apply lookup_insert_eq.
  - rewrite lookup_insert_ne by done. apply lookup_insert_eq.
  - apply lookup_insert_eq.
  - apply lookup_insert_eq.
Qed.

(** X20: a configuration that is set and violates no rule is installed as a
    whole: [handlePostConfig] answers nil; the device holds the supplied junk
    count and sizes (the maximum as adjusted by rule 2); [msgTypeToJunkSize]
    maps the init and response tags to their junk sizes and the cookie-reply
    and transport tags to 0; and [packetSizeToMsgType] maps the transport
    size to the transport tag. *)
Theorem handlePostConfig_accepts t d g :
  isSet t = true ->
  ~ violatesRule t ->
  let r := handlePostConfig t d g in
  let conf := aSecConf r.1.2 in
  r.1.1.1 = None
  /\ junkPacketCount conf = junkPacketCount t
  /\ junkPacketMinSize conf = junkPacketMinSize t
  /\ junkPacketMaxSize conf = adjustedJunkPacketMaxSize t
  /\ initPacketJunkSize conf = initPacketJunkSize t
  /\ responsePacketJunkSize conf = responsePacketJunkSize t
  /\ msgTypeToJunkSize r.2 !! MessageInitiationType r.2 = Some (initPacketJunkSize t)
  /\ msgTypeToJunkSize r.2 !! MessageResponseType r.2 = Some (responsePacketJunkSize t)
  /\ msgTypeToJunkSize r.2 !! MessageCookieReplyType r.2 = Some 0
  /\ msgTypeToJunkSize r.2 !! MessageTransportType r.2 = Some 0
  /\ packetSizeToMsgType r.2 !! MessageTransportSize = Some (MessageTransportType r.2).
Proof.
  intros Hset Hok. cbv zeta.
  pose proof (postConfig_accepts_stretches t d g Hok) as Hst. cbv zeta in Hst.
  unfold handlePostConfig. rewrite Hset. cbn [negb].
  destruct (postConfig_junk t d) as [[[err1 on1] t1] d1]. cbn [fst snd] in *.
  destruct (postConfig_magic t1 on1 d1 g) as [[on2 d2] g2]. cbn [fst snd] in *.
  destruct (postConfig_tables (postConfig_distinct err1 g2) d2 g2) as [err3 g3].
  exact Hst.
Qed.

End PostConfigMore.

(** * The code on concrete inputs *)

#[local] Existing Instance exampleConstants.
#[local] Existing Instance exampleCrypto.
#[local] Existing Instance okBind.
#[local] Existing Instance failingBind.

(** C1, refuted as stated: the configuration [duplicateMagic] is set and has
    two equal resolved headers; [handlePostConfig] answers an
    [IpcErrorInvalid] error, and yet the init and transport tags, the
    installed junk sizes and both dispatch tables have changed. *)
Lemma handlePostConfig_not_all_or_nothing :
  isSet duplicateMagic = true
  /\ resolvedMagicHeaders duplicateMagic = [5; 6; 7; 5]
  /\ isConfigInvalid (handlePostConfig duplicateMagic (newDevice tt) initialGlobals).1.1.1
  /\ messageTypes initialGlobals = [1; 2; 3; 4]
  /\ messageTypes (handlePostConfig duplicateMagic (newDevice tt) initialGlobals).2
     = [5; 6; 7; 5]
  /\ initPacketJunkSize (aSecConf (newDevice tt)) = 0
  /\ initPacketJunkSize
       (aSecConf (handlePostConfig duplicateMagic (newDevice tt) initialGlobals).1.2) = 16
  /\ packetSizeToMsgType initialGlobals !! 164 = None
  /\ packetSizeToMsgType
       (handlePostConfig duplicateMagic (newDevice tt) initialGlobals).2 !! 164 = Some 5
  /\ msgTypeToJunkSize initialGlobals !! 5 = None
  /\ msgTypeToJunkSize
       (handlePostConfig duplicateMagic (newDevice tt) initialGlobals).2 !! 5 = Some 0.
Proof.
  split; [reflexivity|]. split; [reflexivity|].
  split; [eexists; split; vm_compute; reflexivity|].
  repeat split; vm_compute; reflexivity.
Qed.

Lemma handlePostConfig_equal_sizes_witness :
  isConfigInvalid (handlePostConfig equalSizes (newDevice tt) initialGlobals).1.1.1
  /\ packetSizeToMsgType (handlePostConfig equalSizes (newDevice tt) initialGlobals).2
     = packetSizeToMsgType initialGlobals
  /\ msgTypeToJunkSize (handlePostConfig equalSizes (newDevice tt) initialGlobals).2
     = msgTypeToJunkSize initialGlobals.
Proof.
  destruct (handlePostConfig_rejects_and_guards_tables
              equalSizes (newDevice tt) initialGlobals eq_refl) as (_ & _ & Hguard).
  apply Hguard. vm_compute. reflexivity.
Defined.

Lemma handlePostConfig_duplicate_magic_witness :
  messageTypes (handlePostConfig duplicateMagic (newDevice tt) initialGlobals).2
  = resolvedMagicHeaders duplicateMagic
  /\ isConfigInvalid (handlePostConfig duplicateMagic (newDevice tt) initialGlobals).1.1.1.
Proof.
  destruct (handlePostConfig_resolves_magic_headers
              duplicateMagic (newDevice tt) initialGlobals eq_refl) as [Htypes Hdup].
  split; [exact Htypes|]. apply Hdup.
  intros Hnd. apply NoDup_cons in Hnd as [Hnotin _]. apply Hnotin.
  vm_compute. do 2 right. left.
Defined.

Lemma handlePostConfig_unset_witness :
  handlePostConfig zero_aSecConf (newDevice tt) initialGlobals
  = (None, zero_aSecConf, newDevice tt, initialGlobals).
Proof. apply (handlePostConfig_unset_is_noop zero_aSecConf (newDevice tt)). reflexivity. Defined.

(** C2, refuted as stated: on a bind whose [Open] fails and whose [Close]
    then fails too, a request to come up answers the error of [Open]; the
    down-procedure did answer the error of [Close], and that error is no part
    of what [changeState] answers. *)
Lemma changeState_drops_down_error :
  (changeState deviceStateUp (newDevice false)).1
  = Some (ErrOpaque "bind: open failed")
  /\ (downLocked
        (set_state_state deviceStateDown
           (upLocked (set_state_state deviceStateUp (newDevice false))).2)).1
     = Some (ErrOpaque "bind: close failed")
  /\ match (changeState deviceStateUp (newDevice false)).1 with
     | Some e => errorsIs e (ErrOpaque "bind: close failed")
     | None => true
     end = false.
Proof. repeat split; vm_compute; reflexivity. Qed.

Lemma changeState_up_failure_witness :
  (changeState deviceStateUp (newDevice false)).1
  = Some (ErrOpaque "bind: open failed")
  /\ get_deviceState (changeState deviceStateUp (newDevice false)).2 = deviceStateDown.
Proof.
  assert (Hopen : get_deviceState (newDevice false) ≠ deviceStateClosed).
  { intros Heq. discriminate Heq. }
  destruct (changeState_up_failure_answers_up_error (newDevice false) Hopen)
    as [Hup _].
  assert (Hdown : get_deviceState (newDevice false) ≠ deviceStateUp).
  { intros Heq. discriminate Heq. }
  destruct (Hup (ErrOpaque "bind: open failed") Hdown) as (Herr & Hstate & _).
  { vm_compute. reflexivity. }
  split; [exact Herr|exact Hstate].
Defined.

Lemma closed_is_absorbing_witness :
  Forall (fun err => err = None)
         (requests [ReqUp; ReqDown; ReqClose; ReqUp] (Close (newDevice tt))).1
  /\ get_deviceState (requests [ReqUp; ReqDown; ReqClose; ReqUp] (Close (newDevice tt))).2
     = deviceStateClosed.
Proof.
  destruct (closed_is_absorbing (Close (newDevice tt)) [ReqUp; ReqDown; ReqClose; ReqUp])
    as (Herrs & Hstate & _).
  { vm_compute. reflexivity. }
  split; [exact Herrs|exact Hstate].
Defined.

Lemma SetPrivateKey_same_key_witness :
  SetPrivateKey 5 twoPeerDevice = (None, twoPeerDevice).
Proof. apply SetPrivateKey_same_key_is_noop. reflexivity. Defined.

Lemma twoPeerDevice_wf : registry_wf twoPeerDevice.
Proof.
  intros k1 k2 p1 p2 H1 H2 Hid.
  unfold twoPeerDevice in H1, H2.
  cbn [peers_keyMap set_allowedips set_peers_keyMap] in H1, H2.
  apply lookup_insert_Some in H1 as [[<- <-]|[Hk1 H1]];
    apply lookup_insert_Some in H2 as [[<- <-]|[Hk2 H2]];
    try reflexivity;
    repeat match goal with
      | H : <[_ := _]> _ !! _ = Some _ |- _ =>
          apply lookup_insert_Some in H as [[<- <-]|[? H]]
      | H : ∅ !! _ = Some _ |- _ => by rewrite lookup_empty in H
      end;
    try reflexivity; discriminate Hid.
Defined.

Lemma SetPrivateKey_rotation_witness :
  (SetPrivateKey 7 twoPeerDevice).1 = None
  /\ peers_keyMap (SetPrivateKey 7 twoPeerDevice).2 !! 2000
     = Some (mk_Peer 2 2000 14000 0)
  /\ peers_keyMap (SetPrivateKey 7 twoPeerDevice).2 !! 1007 = None.
Proof.
  assert (Hne : 7 ≠ staticIdentity_privateKey twoPeerDevice).
  { intros Heq. discriminate Heq. }
  destruct (SetPrivateKey_rotates_identity 7 twoPeerDevice Hne)
    as (Hnil & _ & _ & Hleft & Hkept).
  split; [exact Hnil|]. split.
  - apply (Hkept 2000 (examplePeer 2 2000)).
    + vm_compute. reflexivity.
    + intros Heq. discriminate Heq.
  - vm_compute. reflexivity.
Defined.

Lemma peer_removal_witness :
  (trie_free_of 1 (RemovePeer 1007 twoPeerDevice)
   /\ unreachable 1 (RemovePeer 1007 twoPeerDevice)
   /\ trace (RemovePeer 1007 twoPeerDevice)
      = (trace twoPeerDevice ++ removal_events 1 1007)%list)
  /\ trie_free_of 1 (RemoveAllPeers twoPeerDevice)
  /\ unreachable 1 (RemoveAllPeers twoPeerDevice)
  /\ trie_free_of 1 (SetPrivateKey 7 twoPeerDevice).2
  /\ unreachable 1 (SetPrivateKey 7 twoPeerDevice).2.
Proof.
  destruct (peer_removal_clears_routes_before_registry
              twoPeerDevice twoPeerDevice_wf 1007 (examplePeer 1 1007))
    as (Hone & (Hall1 & Hall2 & _) & Hself).
  { vm_compute. reflexivity. }
  destruct (Hself 7) as (Hs1 & Hs2 & _).
  { intros Heq. discriminate Heq. }
  { reflexivity. }
  split; [exact Hone|]. split; [exact Hall1|]. split; [exact Hall2|].
  split; [exact Hs1|exact Hs2].
Defined.

Lemma WaitPool_ceiling_witness :
  exists p1,
    WaitPool.run (WaitPool.NewWaitPool 2 0) [WaitPool.StepGet; WaitPool.StepGet] = Some p1
    /\ WaitPool.count p1 = WaitPool.in_flight p1
    /\ WaitPool.in_flight p1 <= 2
    /\ (WaitPool.Get p1 = None <-> WaitPool.in_flight p1 = 2).
Proof.
  assert (Hrun :
            WaitPool.run (WaitPool.NewWaitPool 2 0)
              [WaitPool.StepGet; WaitPool.StepGet; WaitPool.StepPut 0; WaitPool.StepGet]
            = Some (WaitPool.mk_WaitPool [] 0 2 2 [0; 0])).
  { vm_compute. reflexivity. }
  assert (Hmax : 0 < 2) by lia.
  apply (WaitPool_ceiling 2 0 _ _ Hmax Hrun
           [WaitPool.StepGet; WaitPool.StepGet] [WaitPool.StepPut 0; WaitPool.StepGet]).
  reflexivity.
Defined.

(** ** Further runs *)

#[local] Existing Instance markFailingBind.

Lemma BindUpdate_failure_witness :
  trace (BindUpdate (set_state_state deviceStateUp (newDevice false))).2
  = [EvNetStoppingWait]
  /\ net_port (BindUpdate (set_state_state deviceStateUp (newDevice false))).2 = 0.
Proof.
  assert (Hfail : (BindUpdate (set_state_state deviceStateUp (newDevice false))).1 ≠ None).
  { vm_compute. intros Heq. discriminate Heq. }
  destruct (BindUpdate_failure_starts_nothing _ Hfail) as (Htrace & _).
  split; [exact Htrace|]. vm_compute. reflexivity.
Defined.

Lemma BindUpdate_success_witness :
  net_port (BindUpdate (set_state_state deviceStateUp threePeerDevice)).2 = 0
  /\ net_netlinkCancel (BindUpdate (set_state_state deviceStateUp threePeerDevice)).2 = None.
Proof.
  assert (Hok : (BindUpdate (set_state_state deviceStateUp threePeerDevice)).1 = None).
  { vm_compute. reflexivity. }
  assert (Hup : isUp (set_state_state deviceStateUp threePeerDevice) = true).
  { vm_compute. reflexivity. }
  destruct (BindUpdate_success_receivers _ Hup Hok) as (Hport & Hcancel & _).
  split; [exact Hport|exact Hcancel].
Defined.

Lemma changeState_error_witness :
  get_deviceState (changeState deviceStateUp (newDevice false)).2 = deviceStateDown.
Proof.
  apply changeState_error_leaves_down.
  vm_compute. intros Heq. discriminate Heq.
Defined.

Lemma repeated_request_witness :
  Down (Down (set_state_state deviceStateUp threePeerDevice)).2
  = (None, (Down (set_state_state deviceStateUp threePeerDevice)).2).
Proof.
  assert (Hopen : get_deviceState (set_state_state deviceStateUp threePeerDevice)
                  ≠ deviceStateClosed).
  { intros Heq. discriminate Heq. }
  destruct (repeated_request_is_noop _ Hopen) as [Hdown _]. exact Hdown.
Defined.

Lemma Down_witness :
  (Down (set_state_state deviceStateUp threePeerDevice)).1 = None
  /\ get_deviceState (Down (set_state_state deviceStateUp threePeerDevice)).2
     = deviceStateDown
  /\ EvPeerStop 3 ∈ stop_events (set_state_state deviceStateUp threePeerDevice).
Proof.
  assert (Hopen : get_deviceState (set_state_state deviceStateUp threePeerDevice)
                  ≠ deviceStateClosed).
  { intros Heq. discriminate Heq. }
  assert (Hup : get_deviceState (set_state_state deviceStateUp threePeerDevice)
                ≠ deviceStateDown).
  { intros Heq. discriminate Heq. }
  destruct (Down_closes_bind_then_stops_peers _ Hopen Hup) as (Herr & Hstate & _ & Hstop).
  split; [exact Herr|]. split; [exact Hstate|].
  apply (Hstop 3000 (mk_Peer 3 3000 0 25)). vm_compute. reflexivity.
Defined.

Lemma Up_witness :
  get_deviceState (Up threePeerDevice).2 = deviceStateUp
  /\ EvPeerSendKeepalive 3 ∈ start_events threePeerDevice.
Proof.
  assert (Hopen : get_deviceState threePeerDevice ≠ deviceStateClosed).
  { intros Heq. discriminate Heq. }
  assert (Hdown : get_deviceState threePeerDevice ≠ deviceStateUp).
  { intros Heq. discriminate Heq. }
  assert (Hok : (Up threePeerDevice).1 = None).
  { vm_compute. reflexivity. }
  destruct (Up_starts_receivers_then_peers _ Hopen Hdown Hok) as (Hstate & _ & _ & Hstart).
  split; [exact Hstate|].
  destruct (Hstart 3000 (mk_Peer 3 3000 0 25)) as [_ Hkeep].
  { vm_compute. reflexivity. }
  apply Hkeep. reflexivity.
Defined.

Lemma failed_Up_witness :
  exists es,
    trace (Up (newDevice false)).2 = (trace (newDevice false) ++ es)%list
    /\ Forall (fun e => isPeerStart e = false /\ isReceiverEvent e = false) es
    /\ forall k p,
        peers_keyMap (newDevice false) !! k = Some p -> EvPeerStop (peer_id p) ∈ es.
Proof.
  apply failed_Up_starts_nothing.
  - intros Heq. discriminate Heq.
  - intros Heq. discriminate Heq.
  - vm_compute. intros Heq. discriminate Heq.
Defined.

Lemma BindSetMark_witness :
  (BindSetMark 7 (set_state_state deviceStateUp (newDevice 0%nat))).1
  = Some (ErrOpaque "bind: setmark failed")
  /\ trace (BindSetMark 7 (set_state_state deviceStateUp (newDevice 0%nat))).2 = [].
Proof.
  assert (Hnew : net_fwmark (set_state_state deviceStateUp (newDevice 0%nat)) ≠ 7).
  { intros Heq. discriminate Heq. }
  destruct (BindSetMark_new_mark 7 _ Hnew) as [_ Hup].
  assert (Hisup : isUp (set_state_state deviceStateUp (newDevice 0%nat)) = true).
  { vm_compute. reflexivity. }
  destruct (Hup Hisup) as (Herr & _ & Htrace).
  split; [exact Herr|exact Htrace].
Defined.

Lemma Close_order_witness :
  trace (Close threePeerDevice)
  = (trace threePeerDevice
     ++ [LogVerbosef "Device closing" []; EvTunClose]
     ++ closeBind_events threePeerDevice
     ++ match (bind_Close (net_bind threePeerDevice)).2 with
        | Some e => [LogErrorf "Bind close failed: %v" e]
        | None => []
        end
     ++ stop_events threePeerDevice
     ++ removeAll_events threePeerDevice
     ++ closing_events)%list.
Proof.
  apply Close_order. intros Heq. discriminate Heq.
Defined.

Lemma IsUnderLoad_window_witness :
  (IsUnderLoad 999999999
     (set_rate_underLoadUntil (rate_underLoadUntil (IsUnderLoad 0 loadedDevice).2)
        (newDevice tt))).1 = true
  /\ (IsUnderLoad 1000000000
        (set_rate_underLoadUntil (rate_underLoadUntil (IsUnderLoad 0 loadedDevice).2)
           (newDevice tt))).1 = false.
Proof.
  assert (Hdepth : 128 <= Z.of_nat (length (queue_handshake_c loadedDevice))).
  { vm_compute. intros Heq. discriminate Heq. }
  split.
  - refine (proj1 (IsUnderLoad_window 0 999999999 loadedDevice
             (set_rate_underLoadUntil (rate_underLoadUntil (IsUnderLoad 0 loadedDevice).2)
                (newDevice tt))
             Hdepth eq_refl _ _) _).
    + vm_compute. split; [intros Heq; discriminate Heq|reflexivity].
    + vm_compute. split; [intros Heq; discriminate Heq|reflexivity].
    + vm_compute. reflexivity.
  - refine (proj2 (IsUnderLoad_window 0 1000000000 loadedDevice
             (set_rate_underLoadUntil (rate_underLoadUntil (IsUnderLoad 0 loadedDevice).2)
                (newDevice tt))
             Hdepth eq_refl _ _) _ _).
    + vm_compute. split; [intros Heq; discriminate Heq|reflexivity].
    + vm_compute. split; [intros Heq; discriminate Heq|reflexivity].
    + vm_compute. intros Heq. discriminate Heq.
    + vm_compute. reflexivity.
Defined.

Lemma handlePostConfig_flag_witness :
  isAdvancedSecurityOn (handlePostConfig duplicateMagic (newDevice tt) initialGlobals).1.2
  = nonDefault duplicateMagic.
Proof. apply handlePostConfig_flag. reflexivity. Defined.

Lemma handlePostConfig_errors_witness :
  chainLength (handlePostConfig duplicateMagic (newDevice tt) initialGlobals).1.1.1
  = failedChecks duplicateMagic
      (initPacketJunkSize
         (aSecConf (handlePostConfig duplicateMagic (newDevice tt) initialGlobals).1.2))
      (responsePacketJunkSize
         (aSecConf (handlePostConfig duplicateMagic (newDevice tt) initialGlobals).1.2)).
Proof. apply handlePostConfig_errors_accumulate. reflexivity. Defined.

Lemma handlePostConfig_bounds_witness :
  junkPacketMinSize
    (aSecConf (handlePostConfig acceptedConf (newDevice tt) initialGlobals).1.2) = 10
  /\ junkPacketMaxSize
       (aSecConf (handlePostConfig acceptedConf (newDevice tt) initialGlobals).1.2) = 11.
Proof.
  destruct (handlePostConfig_junk_bounds acceptedConf (newDevice tt) initialGlobals eq_refl)
    as (_ & _ & Hboth).
  assert (Hfits : adjustedJunkPacketMaxSize acceptedConf < MaxSegmentSize).
  { vm_compute. reflexivity. }
  assert (Hordered : junkPacketMinSize acceptedConf <= adjustedJunkPacketMaxSize acceptedConf).
  { vm_compute. intros Heq. discriminate Heq. }
  exact (Hboth Hfits Hordered).
Defined.

Lemma handlePostConfig_accepts_witness :
  (handlePostConfig acceptedConf (newDevice tt) initialGlobals).1.1.1 = None
  /\ msgTypeToJunkSize (handlePostConfig acceptedConf (newDevice tt) initialGlobals).2
       !! MessageInitiationType
            (handlePostConfig acceptedConf (newDevice tt) initialGlobals).2
     = Some 16.
Proof.
  assert (Hrules : ~ violatesRule acceptedConf).
  {
    unfold violatesRule.
    intros [Hv|[Hv|[Hv|[Hv|[Hv|[Hv|Hv]]]]]].
    - vm_compute in Hv. discriminate Hv.
    - apply Hv. vm_compute. reflexivity.
    - vm_compute in Hv. discriminate Hv.
    - apply Hv. vm_compute. reflexivity.
    - apply Hv. vm_compute. reflexivity.
    - apply Hv. apply NoDup_four. vm_compute. repeat split; intros Heq; discriminate Heq.
    - vm_compute in Hv. discriminate Hv.
  }
  destruct (handlePostConfig_accepts acceptedConf (newDevice tt) initialGlobals
              eq_refl Hrules)
    as (Hnil & _ & _ & _ & _ & _ & Hinit & _).
  split; [exact Hnil|exact Hinit].
Defined.
